(** * cpap-megascore: EDF decoding and the Wobble analyzers

  A shallow embedding of [js/parsers/edf.js], [js/analysis/engine.js] and
  [js/analysis/algorithms/wobble.js].

  JavaScript numbers are IEEE-754 binary64 values; they are modelled by
  [spec_float] at precision 53 and maximal exponent 1024, so that NaN,
  signed zeros and infinities behave as in the source. *)

From Stdlib Require Import ZArith List String Ascii Strings.Byte Bool Lia.
From Stdlib Require Import Floats.SpecFloat.
From stdpp Require Import gmap strings list.

Local Open Scope Z_scope.

(* ===================================================================== *)
(** ** JavaScript numbers *)
(* ===================================================================== *)

Module JS.

Definition number := spec_float.

Definition prec : Z := 53.
Definition emax : Z := 1024.

Definition NaN : number := S754_nan.
Definition Infinity : number := S754_infinity false.
Definition NegInfinity : number := S754_infinity true.
Definition zero : number := S754_zero false.

Definition add : number -> number -> number := SFadd prec emax.
Definition sub : number -> number -> number := SFsub prec emax.
Definition mul : number -> number -> number := SFmul prec emax.
Definition div : number -> number -> number := SFdiv prec emax.
Definition neg : number -> number := SFopp.

(** [a < b], [a <= b], [a > b], [a >= b]: all false when an operand is NaN. *)
Definition ltb (a b : number) : bool := SFltb a b.
Definition leb (a b : number) : bool := SFleb a b.
Definition gtb (a b : number) : bool := SFltb b a.
Definition geb (a b : number) : bool := SFleb b a.

(** An integer as a number (exact below 2^53, rounded to nearest even above). *)
Definition of_Z (z : Z) : number := binary_normalize prec emax z 0 false.
Definition of_nat (n : nat) : number := of_Z (Z.of_nat n).

(** The number nearest to [p / q], with sign [s]. *)
Definition of_ratio (s : bool) (p q : positive) : number :=
  let '(mz, ez, lz) := SFdiv_core_binary prec emax (Zpos p) 0 (Zpos q) 0 in
  binary_round_aux prec emax s mz ez lz.

(** The number denoted by the decimal literal [m * 10^e]. *)
Definition of_decimal (m : Z) (e : Z) : number :=
  match m with
  | Z0 => zero
  | Zpos p =>
      if 0 <=? e then of_Z (m * 10 ^ e) else of_ratio false p (Z.to_pos (10 ^ (- e)))
  | Zneg p =>
      if 0 <=? e then of_Z (m * 10 ^ e) else of_ratio true p (Z.to_pos (10 ^ (- e)))
  end.

Definition is_nan (x : number) : bool :=
  match x with S754_nan => true | _ => false end.

Definition is_finite (x : number) : bool :=
  match x with S754_zero _ | S754_finite _ _ _ => true | _ => false end.

(** ToBoolean on a number: [0], [-0] and [NaN] are falsy. *)
Definition truthy (x : number) : bool :=
  match x with
  | S754_zero _ | S754_nan => false
  | _ => true
  end.

(** [v || d] where [v] is a property read: [None] is [undefined]. *)
Definition or_default (v : option number) (d : number) : number :=
  match v with
  | Some x => if truthy x then x else d
  | None => d
  end.

(** [v || 0] on a number. *)
Definition or_zero (x : number) : number := if truthy x then x else zero.

Definition Math_abs : number -> number := SFabs.
Definition Math_sqrt : number -> number := SFsqrt prec emax.

(** [Math.max(a, b)]: NaN if either is NaN, and [+0] is larger than [-0]. *)
Definition Math_max (a b : number) : number :=
  match a, b with
  | S754_nan, _ | _, S754_nan => S754_nan
  | S754_zero sa, S754_zero sb => S754_zero (sa && sb)
  | _, _ => if SFltb a b then b else a
  end.

Definition Math_min (a b : number) : number :=
  match a, b with
  | S754_nan, _ | _, S754_nan => S754_nan
  | S754_zero sa, S754_zero sb => S754_zero (sa || sb)
  | _, _ => if SFltb b a then b else a
  end.

(** [Math.max(...xs)]: [-Infinity] on no argument. (The limit that an
    engine puts on the number of spread arguments is not modelled.) *)
Definition Math_max_list (xs : list number) : number :=
  fold_left Math_max xs NegInfinity.

(** Integral numbers, as they come out of [Math.floor]. *)
Inductive integral := INaN | IInf (negative : bool) | IFin (z : Z).

Definition floor_integral (x : number) : integral :=
  match x with
  | S754_nan => INaN
  | S754_infinity s => IInf s
  | S754_zero _ => IFin 0
  | S754_finite s m e => IFin (Z.shiftl (if s then Zneg m else Zpos m) e)
  end.

Definition Math_floor (x : number) : number :=
  match x with
  | S754_finite s m e =>
      if 0 <=? e then x
      else match Z.shiftl (if s then Zneg m else Zpos m) e with
           | Z0 => S754_zero s
           | z => of_Z z
           end
  | _ => x
  end.

(** The integer a number stands for, when it is one. *)
Definition integer_value (x : number) : option Z :=
  match x with
  | S754_zero _ => Some 0
  | S754_finite s m e =>
      let v := if s then Zneg m else Zpos m in
      if 0 <=? e then Some (v * 2 ^ e)
      else if v mod 2 ^ (- e) =? 0 then Some (v / 2 ^ (- e))
      else None
  | _ => None
  end.

(** [xs.reduce((a, b) => a + b, 0)] and the like are left folds. *)
Definition sum (xs : list number) : number := fold_left add xs zero.

(** [xs.reduce((a, b) => a + b)] without initial value; it throws a
    TypeError on an empty array, rendered by [None]. *)
Definition reduce_add (xs : list number) : option number :=
  match xs with
  | [] => None
  | x :: rest => Some (fold_left add rest x)
  end.

(** [xs.slice(b, e)] for integer bounds inside the array. *)
Definition slice {A} (xs : list A) (b e : nat) : list A :=
  take (e - b) (drop b xs).

(** [xs[i]]; an index out of range reads [undefined], which every
    comparison and arithmetic operator turns into NaN. *)
Definition get (xs : list number) (i : nat) : number :=
  default NaN (xs !! i).

(** [xs.slice(b, e)] where [b] is any number and [e] an index: [b] goes
    through ToIntegerOrInfinity (NaN is 0, the fraction is dropped) and a
    negative [b] counts from the end. *)
Definition relative_index (x : number) (len : nat) : nat :=
  match x with
  | S754_nan | S754_zero _ => 0%nat
  | S754_infinity true => 0%nat
  | S754_infinity false => len
  | S754_finite false m e => Nat.min (Z.to_nat (Z.shiftl (Zpos m) e)) len
  | S754_finite true m e =>
      match Z.shiftl (Zpos m) e with
      | Z0 => 0%nat
      | k => Z.to_nat (Z.of_nat len - k)
      end
  end.

Definition slice_from {A} (xs : list A) (b : number) (e : nat) : list A :=
  slice xs (relative_index b (length xs)) (Nat.min e (length xs)).

(** What a call does: it returns, throws, or never comes back. *)
Inductive outcome (A : Type) : Type :=
| Returned (a : A)
| Thrown (message : string)
| Diverged.
Arguments Returned {A} a.
Arguments Thrown {A} message.
Arguments Diverged {A}.

Definition bind {A B} (c : outcome A) (k : A -> outcome B) : outcome B :=
  match c with
  | Returned a => k a
  | Thrown m => Thrown m
  | Diverged => Diverged
  end.

(** Sequencing: [x <- c ;; k] runs [c] and hands its result to [k]; a
    call that throws or never returns ends the sequence. *)
Notation "x <- c ;; k" := (bind c (fun x => k))
  (at level 20, c at level 50, k at level 200, only parsing).
Notation "' p <- c ;; k" := (bind c (fun p => k))
  (at level 20, p pattern, c at level 50, k at level 200, only parsing).

(** [xs.findIndex(p)]. *)
Fixpoint findIndex {A} (p : A -> bool) (xs : list A) : Z :=
  match xs with
  | [] => -1
  | x :: rest =>
      if p x then 0
      else match findIndex p rest with
           | Zneg _ => -1
           | k => k + 1
           end
  end.

End JS.

Import JS.

(* ===================================================================== *)
(** ** Breath segmentation ([WobbleAnalyzer.process], part 1) *)
(* ===================================================================== *)

Module Wobble.

(** A breath object. [end], [inspStart] and [inspEnd] are written by the
    object literal that creates the breath; [endTime] is a property added
    only when the breath is closed. *)
Record Breath := mkBreath {
  start : nat;
  end_ : nat;
  inspStart : nat;
  inspEnd : nat;
  startTime : number;
  endTime : option number
}.

(** The loop state. [breaths] is the array of breath objects, which is
    also the store of these objects: [currentBreath] is a reference into
    it (the position of the object it aliases), [None] being [null]. *)
Record SegState := mkSegState {
  breaths : list Breath;
  inInspiration : bool;
  inspirationStart : nat;
  currentBreath : option nat
}.

Definition seg_init : SegState :=
  {| breaths := []; inInspiration := false; inspirationStart := 0%nat;
     currentBreath := None |}.

Definition close_breath (i : nat) (samplingRate : number) (b : Breath) : Breath :=
  {| start := start b; end_ := i; inspStart := inspStart b; inspEnd := i;
     startTime := startTime b;
     endTime := Some (div (of_nat i) samplingRate) |}.

Definition seg_step (flowData : list number) (samplingRate : number)
    (st : SegState) (i : nat) : SegState :=
  if gtb (get flowData i) zero && leb (get flowData (i - 1)) zero then
    let b := {| start := i; end_ := i; inspStart := i; inspEnd := i;
                startTime := div (of_nat i) samplingRate; endTime := None |} in
    {| breaths := breaths st ++ [b];
       inInspiration := true;
       inspirationStart := i;
       currentBreath := Some (length (breaths st)) |}
  else if leb (get flowData i) zero && gtb (get flowData (i - 1)) zero then
    {| breaths :=
         if inInspiration st then
           match currentBreath st with
           | Some k => alter (close_breath i samplingRate) k (breaths st)
           | None => breaths st
           end
         else breaths st;
       inInspiration := false;
       inspirationStart := inspirationStart st;
       currentBreath := currentBreath st |}
  else st.

(** The state after the iterations [i = 1 .. n]. *)
Definition seg_loop (flowData : list number) (samplingRate : number) (n : nat) : SegState :=
  fold_left (seg_step flowData samplingRate) (seq 1 n) seg_init.

Definition segment (flowData : list number) (samplingRate : number) : list Breath :=
  breaths (seg_loop flowData samplingRate (length flowData - 1)).

(* --------------------------------------------------------------------- *)
(** *** Segmentation in the words of the specification *)

(** Reading the property [end] of a breath object. The object literal
    that creates the breath writes it, so the read never yields
    [undefined]. *)
Definition property_end (b : Breath) : option nat := Some (end_ b).

(** The zero crossings the segmentation loop tests for at index [i]. *)
Definition rising (flowData : list number) (i : nat) : bool :=
  gtb (get flowData i) zero && leb (get flowData (i - 1)) zero.
Definition falling (flowData : list number) (i : nat) : bool :=
  leb (get flowData i) zero && gtb (get flowData (i - 1)) zero.
Definition crossing (flowData : list number) (i : nat) : bool :=
  rising flowData i || falling flowData i.

(** The first crossing among the indices [i+1 .. n]. *)
Definition next_crossing (flowData : list number) (i n : nat) : option nat :=
  List.find (crossing flowData) (seq (S i) (n - i)).

Definition opened (samplingRate : number) (i : nat) : Breath :=
  {| start := i; end_ := i; inspStart := i; inspEnd := i;
     startTime := div (of_nat i) samplingRate; endTime := None |}.

(** The breath that starts at [i], as the indices up to [n] leave it:
    closed at the first crossing after [i] if that is a falling one. *)
Definition breath_at (flowData : list number) (samplingRate : number) (n i : nat) : Breath :=
  match next_crossing flowData i n with
  | Some j =>
      if falling flowData j then close_breath j samplingRate (opened samplingRate i)
      else opened samplingRate i
  | None => opened samplingRate i
  end.

Definition segment_upto (flowData : list number) (samplingRate : number) (n : nat) : list Breath :=
  map (breath_at flowData samplingRate n) (List.filter (rising flowData) (seq 1 n)).

(** The state the loop is in after the indices [1 .. n]. *)
Definition seg_state (flowData : list number) (samplingRate : number) (n : nat) : SegState :=
  let starts := List.filter (rising flowData) (seq 1 n) in
  {| breaths := segment_upto flowData samplingRate n;
     inInspiration :=
       match last starts with
       | Some i => bool_decide (next_crossing flowData i n = None)
       | None => false
       end;
     inspirationStart := default 0%nat (last starts);
     currentBreath :=
       match starts with
       | [] => None
       | _ => Some (length starts - 1)%nat
       end |}.

(* --------------------------------------------------------------------- *)
(** *** 1. Flow limitation *)

(** The settings object: a flat map from parameter names to numbers; a
    missing key reads as [undefined]. *)
Abbreviation Settings := (gmap string number).

Definition topPercent (settings : Settings) : number :=
  or_default (settings !! "flTopPercentage"%string) (of_decimal 5 (-1)).
Definition targetVar (settings : Settings) : number :=
  or_default (settings !! "flFlatnessTarget"%string) (of_decimal 5 (-2)).

Definition mean_of (xs : list number) : outcome number :=
  match reduce_add xs with
  | Some s => Returned (div s (of_nat (length xs)))
  | None => Thrown "Reduce of empty array with no initial value"
  end.

Definition variance_of (xs : list number) (mean : number) : number :=
  div (fold_left (fun sum val => let diff := sub val mean in add sum (mul diff diff)) xs zero)
      (of_nat (length xs)).

Definition flatness_of (targetVar topHalfVariance : number) : number :=
  Math_max zero
    (Math_min (of_Z 100) (mul (div (sub targetVar topHalfVariance) targetVar) (of_Z 100))).

(** One iteration of the loop over [breaths]: [Some flatness] is pushed on
    [flScores], [None] stands for [continue] or a skipped [if]. *)
Definition breath_flatness (flowData : list number) (settings : Settings)
    (breath : Breath) : outcome (option number) :=
  let inspFlow := slice flowData (inspStart breath) (inspEnd breath) in
  if (length inspFlow <? 10)%nat then Returned None else
  let maxFlow := Math_max_list inspFlow in
  if ltb maxFlow (of_decimal 1 (-1)) then Returned None else
  let normalizedFlow := map (fun f => div f maxFlow) inspFlow in
  let topHalfStart := findIndex (fun f => gtb f (topPercent settings)) normalizedFlow in
  let topHalfEnd :=
    Z.of_nat (length normalizedFlow)
    - findIndex (fun f => gtb f (topPercent settings)) (rev normalizedFlow) in
  if (0 <=? topHalfStart) && (topHalfStart <? topHalfEnd) then
    let topHalf := slice normalizedFlow (Z.to_nat topHalfStart) (Z.to_nat topHalfEnd) in
    topHalfMean <- mean_of topHalf ;;
    let topHalfVariance := variance_of topHalf topHalfMean in
    Returned (Some (flatness_of (targetVar settings) topHalfVariance))
  else Returned None.

Fixpoint flScores (flowData : list number) (settings : Settings)
    (bs : list Breath) : outcome (list number) :=
  match bs with
  | [] => Returned []
  | breath :: rest =>
      r <- breath_flatness flowData settings breath ;;
      scores <- flScores flowData settings rest ;;
      Returned (match r with Some flatness => flatness :: scores | None => scores end)
  end.

Definition flScore (scores : list number) : number :=
  match reduce_add scores with
  | Some s => div s (of_nat (length scores))
  | None => zero
  end.

(** The words of the specification for the top span: the first and the
    last index of a sample above the threshold, and the variance of the
    samples from the one to the other, both included. *)
Fixpoint first_index {A} (p : A -> bool) (xs : list A) : option nat :=
  match xs with
  | [] => None
  | x :: rest => if p x then Some 0%nat else option_map S (first_index p rest)
  end.

Fixpoint last_index {A} (p : A -> bool) (xs : list A) : option nat :=
  match xs with
  | [] => None
  | x :: rest =>
      match last_index p rest with
      | Some k => Some (S k)
      | None => if p x then Some 0%nat else None
      end
  end.

Definition variance (xs : list number) : number :=
  match reduce_add xs with
  | Some s => variance_of xs (div s (of_nat (length xs)))
  | None => NaN
  end.

Definition normalized_inspiration (flowData : list number) (breath : Breath) : list number :=
  let inspFlow := slice flowData (inspStart breath) (inspEnd breath) in
  map (fun f => div f (Math_max_list inspFlow)) inspFlow.

(** The flatness of a breath, [None] for a breath that does not count. *)
Definition flatness_stated (flowData : list number) (settings : Settings)
    (breath : Breath) : option number :=
  let inspFlow := slice flowData (inspStart breath) (inspEnd breath) in
  let normalizedFlow := normalized_inspiration flowData breath in
  let above := fun f => gtb f (topPercent settings) in
  if (length inspFlow <? 10)%nat then None
  else if ltb (Math_max_list inspFlow) (of_decimal 1 (-1)) then None
  else
    match first_index above normalizedFlow, last_index above normalizedFlow with
    | Some first, Some last =>
        Some (flatness_of (targetVar settings)
                (variance (slice normalizedFlow first (S last))))
    | _, _ => None
    end.

(* --------------------------------------------------------------------- *)
(** *** 2. Arousal estimation *)

Record Metric := mkMetric {
  time : number;
  rate : number;
  volume : number;
  breathIndex : nat
}.

Definition totalDurationHours (flowData : list number) (samplingRate : number) : number :=
  div (div (of_nat (length flowData)) samplingRate) (of_Z 3600).

Definition metric_step (flowData : list number) (samplingRate : number)
    (bs : list Breath) (breathMetrics : list Metric) (i : nat) : list Metric :=
  match bs !! i, bs !! (i - 1)%nat with
  | Some breath, Some prevBreath =>
      let breathDuration := sub (startTime breath) (startTime prevBreath) in
      if leb breathDuration zero || gtb breathDuration (of_Z 20) then breathMetrics
      else
        let respiratoryRate := div (of_Z 60) breathDuration in
        let inspFlow := slice flowData (inspStart breath) (inspEnd breath) in
        let tidalVolume :=
          div (fold_left (fun sum f => add sum (Math_abs f)) inspFlow zero) samplingRate in
        breathMetrics ++
          [{| time := startTime breath; rate := respiratoryRate;
              volume := tidalVolume; breathIndex := i |}]
  | _, _ => breathMetrics
  end.

Definition breathMetrics (flowData : list number) (samplingRate : number)
    (bs : list Breath) : list Metric :=
  fold_left (metric_step flowData samplingRate bs) (seq 1 (length bs - 1)) [].

Definition baselineWindow (settings : Settings) : number :=
  or_default (settings !! "arousalBaselineWindowSec"%string) (of_Z 120).
Definition minRateInc (settings : Settings) : number :=
  or_default (settings !! "arousalRateIncreaseMin"%string) (of_decimal 20 (-2)).
Definition minVolInc (settings : Settings) : number :=
  or_default (settings !! "arousalVolIncreaseMin"%string) (of_decimal 30 (-2)).

Definition baselineMetrics (settings : Settings) (ms : list Metric)
    (i : nat) (currentMetric : Metric) : list Metric :=
  let baselineStart :=
    Math_max zero
      (sub (of_nat i)
           (Math_floor (div (baselineWindow settings) (div (of_Z 60) (rate currentMetric))))) in
  slice_from ms baselineStart i.

Definition baselineRate (base : list Metric) : number :=
  div (fold_left (fun sum m => add sum (rate m)) base zero) (of_nat (length base)).
Definition baselineVolume (base : list Metric) : number :=
  div (fold_left (fun sum m => add sum (volume m)) base zero) (of_nat (length base)).

Definition rateIncrease (base : list Metric) (currentMetric : Metric) : number :=
  div (sub (rate currentMetric) (baselineRate base)) (baselineRate base).
Definition volumeIncrease (base : list Metric) (currentMetric : Metric) : number :=
  div (sub (volume currentMetric) (baselineVolume base)) (baselineVolume base).

(** The test [rateIncrease > minRateInc || volumeIncrease > minVolInc] of
    iteration [i], false when the iteration [continue]s before it. *)
Definition qualifies (settings : Settings) (ms : list Metric) (i : nat)
    (currentMetric : Metric) : bool :=
  let base := baselineMetrics settings ms i currentMetric in
  if (length base <? 5)%nat then false
  else gtb (rateIncrease base currentMetric) (minRateInc settings)
       || gtb (volumeIncrease base currentMetric) (minVolInc settings).

(** An entry [{ time }] of [arousalList]. *)
Record Arousal := mkArousal { arousal_time : number }.

Definition recentArousal (arousalList : list Arousal) (currentMetric : Metric) : bool :=
  match last arousalList with
  | Some a => ltb (sub (time currentMetric) (arousal_time a)) (of_Z 15)
  | None => false
  end.

Definition arousal_step (settings : Settings) (ms : list Metric)
    (arousalList : list Arousal) (i : nat) : list Arousal :=
  match ms !! i with
  | Some currentMetric =>
      if qualifies settings ms i currentMetric then
        if negb (recentArousal arousalList currentMetric)
        then arousalList ++ [{| arousal_time := time currentMetric |}]
        else arousalList
      else arousalList
  | None => arousalList
  end.

Definition arousalList (settings : Settings) (ms : list Metric) : list Arousal :=
  fold_left (arousal_step settings ms) (seq 0 (length ms)) [].

Definition arousals (flowData : list number) (samplingRate : number)
    (settings : Settings) (bs : list Breath) : number :=
  if (10 <=? length bs)%nat && gtb (totalDurationHours flowData samplingRate) zero then
    div (of_nat (length (arousalList settings (breathMetrics flowData samplingRate bs))))
        (totalDurationHours flowData samplingRate)
  else zero.




(** Two settings objects that the analyzer cannot tell apart. *)
Definition same_parameters (s1 s2 : Settings) : Prop :=
  topPercent s1 = topPercent s2 /\ targetVar s1 = targetVar s2 /\
  baselineWindow s1 = baselineWindow s2 /\ minRateInc s1 = minRateInc s2 /\
  minVolInc s1 = minVolInc s2.

(* --------------------------------------------------------------------- *)
(** *** 3. Minute ventilation, entropy and FFT *)

Definition windowSize (samplingRate : number) : number :=
  Math_floor (mul (of_Z 60) samplingRate).
Definition stepSize (samplingRate : number) : number :=
  Math_floor (mul (of_Z 5) samplingRate).

Record VentState := mkVentState {
  tidalVolume : number;
  breathCount : nat;
  inInh : bool
}.

(** The body of the loop over [j], which is three [if]s in a row. *)
Definition vent_step (window : list number) (samplingRate : number)
    (st : VentState) (j : nat) : VentState :=
  let st1 :=
    if gtb (get window j) zero && leb (get window (j - 1)) zero
    then {| tidalVolume := tidalVolume st; breathCount := S (breathCount st); inInh := true |}
    else st in
  let st2 :=
    if inInh st1 && gtb (get window j) zero
    then {| tidalVolume := add (tidalVolume st1) (div (Math_abs (get window j)) samplingRate);
            breathCount := breathCount st1; inInh := inInh st1 |}
    else st1 in
  if leb (get window j) zero
  then {| tidalVolume := tidalVolume st2; breathCount := breathCount st2; inInh := false |}
  else st2.

Definition window_vent (window : list number) (samplingRate : number) : number :=
  let st := fold_left (vent_step window samplingRate) (seq 1 (length window - 1))
              {| tidalVolume := zero; breathCount := 0%nat; inInh := false |} in
  div (mul (tidalVolume st) (of_nat (breathCount st))) (of_Z 60).

(** The loop [for (i = 0; i < flowData.length - windowSize; i += stepSize)].
    When it ends it does so within [length flowData] iterations (the step
    is then at least 1), so running out of [fuel = S (length flowData)]
    means that it never ends. *)
Fixpoint vent_loop (fuel : nat) (flowData : list number) (samplingRate : number)
    (i : number) (minuteVent : list number) : outcome (list number) :=
  if ltb i (sub (of_nat (length flowData)) (windowSize samplingRate)) then
    match fuel with
    | O => Diverged
    | S fuel' =>
        let window :=
          slice flowData (relative_index i (length flowData))
            (relative_index (add i (windowSize samplingRate)) (length flowData)) in
        vent_loop fuel' flowData samplingRate (add i (stepSize samplingRate))
          (minuteVent ++ [window_vent window samplingRate])
    end
  else Returned minuteVent.

Definition minuteVent (flowData : list number) (samplingRate : number) : outcome (list number) :=
  vent_loop (S (length flowData)) flowData samplingRate zero [].

(** [match] of [countMatches]: no offset [k < m] has a difference above [r]
    (the [break] only saves the remaining comparisons). *)
Definition template_match (mv : list number) (r : number) (m i j : nat) : bool :=
  forallb (fun k => negb (gtb (Math_abs (sub (get mv (i + k)) (get mv (j + k)))) r)) (seq 0 m).

Definition countMatches (mv : list number) (r : number) (m : nat) : nat :=
  let N := length mv in
  fold_left
    (fun count i =>
       fold_left (fun count j => if template_match mv r m i j then S count else count)
         (seq (S i) (N - m - S i)) count)
    (seq 0 (N - m)) 0%nat.

(** Counting index pairs: the number of [(i, j)] among all pairs of
    indices below [N] for which [Q i j] holds. *)
Definition count_pairs (N : nat) (Q : nat -> nat -> bool) : nat :=
  length (List.filter (fun p => Q (fst p) (snd p)) (list_prod (seq 0 N) (seq 0 N))).

(** The words of the specification for the counts [B] and [A]: the pairs
    [i < j] whose templates of length [m] both lie within the series and
    differ by at most [r] at every offset. *)
Definition match_stated (mv : list number) (r : number) (m i j : nat) : bool :=
  forallb (fun k => leb (Math_abs (sub (get mv (i + k)) (get mv (j + k)))) r) (seq 0 m).

Definition count_stated (mv : list number) (r : number) (m : nat) : nat :=
  count_pairs (length mv)
    (fun i j => (i <? j)%nat && (i + m <=? length mv)%nat && (j + m <=? length mv)%nat
                && match_stated mv r m i j).

Record Complex := mkComplex { re : number; im : number }.

(** [Math.pow(2, Math.ceil(Math.log2(N)))] for an array length [N >= 1]:
    the least power of two that is at least [N]. *)
Fixpoint pow2_from (fuel p N : nat) : nat :=
  match fuel with
  | O => p
  | S fuel' => if (N <=? p)%nat then p else pow2_from fuel' (2 * p) N
  end.
Definition next_pow2 (N : nat) : nat := pow2_from N 1 N.

Fixpoint evens {A} (xs : list A) : list A :=
  match xs with
  | [] => []
  | x :: rest => x :: match rest with [] => [] | _ :: rest' => evens rest' end
  end.
Definition odds {A} (xs : list A) : list A :=
  match xs with [] => [] | _ :: rest => evens rest end.

Definition Math_PI : number := of_decimal 3141592653589793 (-15).

Section Host.

(** Library functions whose results the language leaves to the
    implementation. *)
Variable Math_cos Math_sin Math_log : number -> number.
Variable Math_pow : number -> number -> number.
(** [x.toFixed(1)]. *)
Variable toFixed1 : number -> string.

Definition mv_variance (mv : list number) (mvMean : number) : number :=
  div (fold_left (fun sum val => add sum (Math_pow (sub val mvMean) (of_Z 2))) mv zero)
      (of_nat (length mv)).

Definition tolerance (mv : list number) (mvMean : number) : number :=
  mul (of_decimal 2 (-1)) (Math_sqrt (mv_variance mv mvMean)).

Definition sampleEntropy (mv : list number) (r : number) : number :=
  let B := countMatches mv r 2 in
  let A := countMatches mv r 3 in
  if (B =? 0)%nat || (A =? 0)%nat then zero
  else neg (Math_log (div (of_nat A) (of_nat B))).

Definition regularityScore (se : number) : number :=
  Math_max zero
    (Math_min (of_Z 100) (sub (of_Z 100) (mul (div se (of_decimal 25 (-1))) (of_Z 100)))).

Definition butterfly (N k : nat) (even odd : list Complex) : Complex * Complex :=
  let angle := div (mul (mul (of_Z (-2)) Math_PI) (of_nat k)) (of_nat N) in
  let e := default {| re := NaN; im := NaN |} (even !! k) in
  let o := default {| re := NaN; im := NaN |} (odd !! k) in
  let t := {| re := sub (mul (Math_cos angle) (re o)) (mul (Math_sin angle) (im o));
              im := add (mul (Math_cos angle) (im o)) (mul (Math_sin angle) (re o)) |} in
  ({| re := add (re e) (re t); im := add (im e) (im t) |},
   {| re := sub (re e) (re t); im := sub (im e) (im t) |}).

(** The recursive [fft]. Every call halves the length or pads it once to
    a power of two, so [S (length x)] nested calls are more than enough;
    [fft_rec] returns its input if the fuel were to run out. *)
Fixpoint fft_rec (fuel : nat) (x : list Complex) : list Complex :=
  match fuel with
  | O => x
  | S fuel' =>
      let N := length x in
      if (N <=? 1)%nat then x
      else if negb (N mod 2 =? 0)%nat then
        let pow := next_pow2 N in
        fft_rec fuel' (x ++ repeat {| re := zero; im := zero |} (pow - N))
      else
        let even := fft_rec fuel' (evens x) in
        let odd := fft_rec fuel' (odds x) in
        let halves := map (fun k => butterfly N k even odd) (seq 0 (N / 2)) in
        map fst halves ++ map snd halves
  end.

Definition fft (x : list Complex) : list Complex := fft_rec (S (S (length x))) x.

(** The periodicity index. The [try] around it in the source has nothing
    to catch: no operation of this computation throws. *)
Definition periodicityIndex (mv : list number) (mvMean : number) : number :=
  let detrended := map (fun v => sub v mvMean) mv in
  let n := next_pow2 (length detrended) in
  let paddedForFFT := detrended ++ repeat zero (n - length detrended) in
  let complex := map (fun v => {| re := v; im := zero |}) paddedForFFT in
  let spectrum := fft complex in
  let power :=
    map (fun c => Math_sqrt (add (mul (re c) (re c)) (mul (im c) (im c))))
      (take (n / 2) spectrum) in
  let dt := of_Z 5 in
  let freqs := imap (fun i _ => div (of_nat i) (mul (of_nat n) dt)) power in
  let totalPower := sum power in
  let pbPower :=
    sum (omap (fun pf : number * number =>
                 if geb (snd pf) (of_decimal 1 (-2)) && leb (snd pf) (of_decimal 3 (-2))
                 then Some (fst pf) else None)
              (zip power freqs)) in
  Math_min (of_Z 100) (mul (div pbPower totalPower) (of_Z 200)).

(** The four numbers before they are formatted. *)
Record Scores := mkScores {
  score_fl : number;
  score_arousal : number;
  score_regularity : number;
  score_periodicity : number
}.

Definition process_scores (flowData : list number) (samplingRate : number)
    (settings : Settings) : outcome Scores :=
  let bs := segment flowData samplingRate in
  scores <- flScores flowData settings bs ;;
  mv <- minuteVent flowData samplingRate ;;
  match mv with
  | [] =>
      Returned {| score_fl := flScore scores;
                  score_arousal := arousals flowData samplingRate settings bs;
                  score_regularity := zero; score_periodicity := zero |}
  | _ :: _ =>
      mvMean <- mean_of mv ;;
      Returned {| score_fl := flScore scores;
                  score_arousal := arousals flowData samplingRate settings bs;
                  score_regularity := regularityScore (sampleEntropy mv (tolerance mv mvMean));
                  score_periodicity := periodicityIndex mv mvMean |}
  end.

Record Result := mkResult {
  wobbleFL : string;
  wobbleArousal : string;
  wobbleRegularity : string;
  wobblePeriodicity : string
}.

Definition process (flowData : list number) (samplingRate : number)
    (settings : Settings) : outcome Result :=
  s <- process_scores flowData samplingRate settings ;;
  Returned {| wobbleFL := toFixed1 (score_fl s);
              wobbleArousal := toFixed1 (score_arousal s);
              wobbleRegularity := toFixed1 (score_regularity s);
              wobblePeriodicity := toFixed1 (score_periodicity s) |}.

End Host.

End Wobble.

(* ===================================================================== *)
(** ** The analysis engine ([AnalysisEngine]) *)
(* ===================================================================== *)

Module Engine.

Section Engine.

(** What a tool returns (an object of its findings), and the part of the
    program state a tool may read and write while it runs. *)
Variable Findings : Type.
Variable World : Type.

Record Column := mkColumn { key : string; label : string }.

(** What a tool throws, as far as the [catch] block looks at it: [null],
    [undefined], or any other value, of which the block reads the
    property [message] ([None] when the value has none, as a thrown
    string has). *)
Inductive Raised :=
| RaisedNull
| RaisedUndefined
| RaisedValue (message : option string).

(** What a call of [tool.process] does: it returns its findings, throws,
    or never comes back. *)
Inductive Run :=
| Finished (findings : Findings)
| Raise (error : Raised)
| Never.

(** An analyzer object. Any of its properties may be missing. *)
Record Analyzer := mkAnalyzer {
  id : option string;
  name : option string;
  process : option (list number -> number -> Wobble.Settings -> World -> Run * World);
  tableColumns : option (list Column)
}.

Inductive ConsoleEvent :=
| ConsoleLog (text : string)
| ConsoleError (text : string) (detail : option Raised).

(** An entry of the results object: the tool's findings, or
    [{ error: error.message }]. *)
Inductive Entry :=
| Found (findings : Findings)
| ErrorEntry (error : option string).

Record EngineState := mkEngineState {
  analyzers : list Analyzer;
  console : list ConsoleEvent
}.

Definition string_of_name (n : option string) : string := default "undefined"%string n.

(** [!analyzer.id]: a missing or empty id is falsy. *)
Definition falsy_string (s : option string) : bool :=
  match s with
  | None => true
  | Some EmptyString => true
  | Some _ => false
  end.

Definition register (analyzer : Analyzer) (e : EngineState) : EngineState :=
  if falsy_string (id analyzer) || negb (bool_decide (is_Some (process analyzer)))
     || negb (bool_decide (is_Some (tableColumns analyzer)))
  then {| analyzers := analyzers e;
          console := console e ++
            [ConsoleError "Failed to register analyzer: Missing required fields" None] |}
  else {| analyzers := analyzers e ++ [analyzer];
          console := console e ++
            [ConsoleLog ("Registered Analysis Engine Tool: " ++ string_of_name (name analyzer))] |}.

(** The property key [tool.id]. *)
Definition tool_key (tool : Analyzer) : string := default "undefined"%string (id tool).

(** The call [tool.process(flowData, samplingRate, currentSettings)];
    calling a missing [process] throws a TypeError. *)
Definition invoke (tool : Analyzer) (flowData : list number) (samplingRate : number)
    (currentSettings : Wobble.Settings) (w : World) : Run * World :=
  match process tool with
  | Some f => f flowData samplingRate currentSettings w
  | None => (Raise (RaisedValue (Some "tool.process is not a function"%string)), w)
  end.

Record RunState := mkRunState {
  results : gmap string Entry;
  run_console : list ConsoleEvent;
  world : World
}.

(** One iteration of [for (const tool of this.analyzers)], [try] and
    [catch] included. The [catch] block logs the thrown value and then
    reads its property [message]; on [null] and [undefined] this read
    throws a TypeError, which nothing catches: it leaves [processSession].
    A tool that never returns stops the whole loop. *)
Definition run_tool (flowData : list number) (samplingRate : number)
    (currentSettings : Wobble.Settings) (st : RunState) (tool : Analyzer) : outcome RunState :=
  match invoke tool flowData samplingRate currentSettings (world st) with
  | (Finished findings, w) =>
      Returned {| results := <[tool_key tool := Found findings]> (results st);
                  run_console := run_console st; world := w |}
  | (Raise error, w) =>
      let logged :=
        run_console st ++
          [ConsoleError ("Error running analyzer [" ++ string_of_name (name tool) ++ "]:")
             (Some error)] in
      match error with
      | RaisedValue message =>
          Returned {| results := <[tool_key tool := ErrorEntry message]> (results st);
                      run_console := logged; world := w |}
      | RaisedNull => Thrown "Cannot read properties of null (reading 'message')"
      | RaisedUndefined => Thrown "Cannot read properties of undefined (reading 'message')"
      end
  | (Never, _) => Diverged
  end.

Fixpoint run_tools (flowData : list number) (samplingRate : number)
    (currentSettings : Wobble.Settings) (tools : list Analyzer) (st : RunState) : outcome RunState :=
  match tools with
  | [] => Returned st
  | tool :: rest =>
      bind (run_tool flowData samplingRate currentSettings st tool)
           (run_tools flowData samplingRate currentSettings rest)
  end.

Definition processSession (e : EngineState) (flowData : list number) (samplingRate : number)
    (currentSettings : Wobble.Settings) (w : World) : outcome RunState :=
  run_tools flowData samplingRate currentSettings (analyzers e)
    {| results := ∅; run_console := console e; world := w |}.

(** The world after the tools of a list have run one after the other. *)
Definition world_after (flowData : list number) (samplingRate : number)
    (currentSettings : Wobble.Settings) (tools : list Analyzer) (w : World) : World :=
  fold_left (fun w tool => snd (invoke tool flowData samplingRate currentSettings w)) tools w.

(** A call that the loop gets over: the tool returns, or throws a value
    other than [null] and [undefined]. *)
Definition handled (r : Run) : bool :=
  match r with
  | Finished _ | Raise (RaisedValue _) => true
  | Raise RaisedNull | Raise RaisedUndefined | Never => false
  end.

(** The entry a tool leaves when it is called in world [w]. *)
Definition entry_of (flowData : list number) (samplingRate : number)
    (currentSettings : Wobble.Settings) (tool : Analyzer) (w : World) : option Entry :=
  match fst (invoke tool flowData samplingRate currentSettings w) with
  | Finished findings => Some (Found findings)
  | Raise (RaisedValue message) => Some (ErrorEntry message)
  | _ => None
  end.

(** The objects that [register] keeps. *)
Definition accepted (analyzer : Analyzer) : bool :=
  negb (falsy_string (id analyzer) || negb (bool_decide (is_Some (process analyzer)))
        || negb (bool_decide (is_Some (tableColumns analyzer)))).

Definition empty_engine : EngineState := {| analyzers := []; console := [] |}.

Definition register_all (objects : list Analyzer) : EngineState :=
  fold_left (fun e analyzer => register analyzer e) objects empty_engine.

Definition getAllTableColumns (e : EngineState) : list (Column * string) :=
  flat_map (fun tool => map (fun col => (col, tool_key tool)) (default [] (tableColumns tool)))
    (analyzers e).

End Engine.

Arguments Found {Findings} findings.
Arguments ErrorEntry {Findings} error.
Arguments Finished {Findings} findings.
Arguments Raise {Findings} error.
Arguments Never {Findings}.
Arguments handled {Findings} r.
Arguments id {Findings World} _.
Arguments name {Findings World} _.
Arguments process {Findings World} _.
Arguments tableColumns {Findings World} _.
Arguments analyzers {Findings World} _.
Arguments console {Findings World} _.
Arguments results {Findings World} _.
Arguments run_console {Findings World} _.
Arguments world {Findings World} _.
Arguments register {Findings World} analyzer e.
Arguments tool_key {Findings World} tool.
Arguments invoke {Findings World} tool flowData samplingRate currentSettings w.
Arguments run_tool {Findings World} flowData samplingRate currentSettings st tool.
Arguments run_tools {Findings World} flowData samplingRate currentSettings tools st.
Arguments processSession {Findings World} e flowData samplingRate currentSettings w.
Arguments world_after {Findings World} flowData samplingRate currentSettings tools w.
Arguments entry_of {Findings World} flowData samplingRate currentSettings tool w.
Arguments accepted {Findings World} analyzer.
Arguments register_all {Findings World} objects.
Arguments empty_engine {Findings World}.

End Engine.

(* ===================================================================== *)
(** ** The EDF parser ([EDFParser.parse]) *)
(* ===================================================================== *)

Module EDF.

(** Text is kept as a string of bytes: [TextDecoder('ascii')] maps every
    byte to one character, and a byte stands here for that character. *)

(** The characters that [trim] removes; among the single-byte characters
    these are TAB, LF, VT, FF, CR, space and the no-break space. *)
Definition is_space (c : ascii) : bool :=
  match N_of_ascii c with
  | 9 | 10 | 11 | 12 | 13 | 32 | 160 => true
  | _ => false
  end%N.

Fixpoint trimStart (s : string) : string :=
  match s with
  | String c r => if is_space c then trimStart r else s
  | EmptyString => EmptyString
  end.

Definition string_rev (s : string) : string :=
  string_of_list_ascii (rev (list_ascii_of_string s)).

Definition trim (s : string) : string :=
  string_rev (trimStart (string_rev (trimStart s))).

Definition to_lower (c : ascii) : ascii :=
  let n := N_of_ascii c in
  if ((65 <=? n) && (n <=? 90))%N then ascii_of_N (n + 32) else c.

Fixpoint toLowerCase (s : string) : string :=
  match s with
  | String c r => String (to_lower c) (toLowerCase r)
  | EmptyString => EmptyString
  end.

Fixpoint includes (s needle : string) : bool :=
  String.prefix needle s
  || match s with
     | String _ r => includes r needle
     | EmptyString => false
     end.

(** [s.split('.')]. *)
Fixpoint split_dot (s : string) (current : string) : list string :=
  match s with
  | String c r =>
      if Ascii.eqb c "."%char then string_rev current :: split_dot r EmptyString
      else split_dot r (String c current)
  | EmptyString => [string_rev current]
  end.
Definition split (s : string) : list string := split_dot s EmptyString.

Definition digit_value (c : ascii) : option Z :=
  let n := Z.of_N (N_of_ascii c) in
  if (48 <=? n) && (n <=? 57) then Some (n - 48)
  else if (97 <=? n) && (n <=? 122) then Some (n - 87)
  else if (65 <=? n) && (n <=? 90) then Some (n - 55)
  else None.

(** The longest prefix of digits of the radix: its value and its length. *)
Fixpoint span_digits (radix : Z) (s : string) (acc : Z) (n : nat) : Z * nat * string :=
  match s with
  | String c r =>
      match digit_value c with
      | Some d => if d <? radix then span_digits radix r (acc * radix + d) (S n) else (acc, n, s)
      | None => (acc, n, s)
      end
  | EmptyString => (acc, n, s)
  end.

Definition strip_sign (s : string) : bool * string :=
  match s with
  | String "-"%char r => (true, r)
  | String "+"%char r => (false, r)
  | _ => (false, s)
  end.

(** [parseInt(s)] without a radix. *)
Definition parseInt (s : string) : number :=
  let '(sign, s1) := strip_sign (trimStart s) in
  let '(radix, s2) :=
    match s1 with
    | String "0"%char (String "x"%char r) => (16, r)
    | String "0"%char (String "X"%char r) => (16, r)
    | _ => (10, s1)
    end in
  match span_digits radix s2 0 0 with
  | (_, O, _) => NaN
  | (Z0, _, _) => S754_zero sign
  | (z, _, _) => of_Z (if sign then - z else z)
  end.

(** [parseInt(parts[k])]: a missing part is [undefined], which is no number. *)
Definition parseInt_part (parts : list string) (k : nat) : number :=
  match parts !! k with
  | Some s => parseInt s
  | None => NaN
  end.

(** [parseFloat(s)]: the longest prefix that is a decimal literal. *)
Definition parseFloat (s : string) : number :=
  let '(sign, s1) := strip_sign (trimStart s) in
  if String.prefix "Infinity" s1 then S754_infinity sign
  else
    let '(i, ni, s2) := span_digits 10 s1 0 0 in
    let mantissa :=
      match s2 with
      | String "."%char r =>
          let '(f, nf, s3) := span_digits 10 r i 0 in
          if (ni + nf =? 0)%nat then None else Some (f, - Z.of_nat nf, s3)
      | _ => if (ni =? 0)%nat then None else Some (i, 0, s2)
      end in
    match mantissa with
    | None => NaN
    | Some (m, e, s4) =>
        let exponent :=
          match s4 with
          | String c r =>
              if Ascii.eqb c "e"%char || Ascii.eqb c "E"%char then
                let '(esign, r1) := strip_sign r in
                match span_digits 10 r1 0 0 with
                | (_, O, _) => 0
                | (x, _, _) => if esign then - x else x
                end
              else 0
          | EmptyString => 0
          end in
        match m with
        | Z0 => S754_zero sign
        | _ => of_decimal (if sign then - m else m) (e + exponent)
        end
    end.

Definition byte_value (b : byte) : Z := Z.of_N (Byte.to_N b).

Fixpoint decode (bs : list byte) : string :=
  match bs with
  | [] => EmptyString
  | b :: rest => String (ascii_of_byte b) (decode rest)
  end.

(** [getStr(offset, len)]: the view [new Uint8Array(buffer, offset, len)]
    throws a RangeError when it does not fit in the buffer. *)
Definition getStr (buffer : list byte) (offset len : nat) : outcome string :=
  if (offset + len <=? length buffer)%nat
  then Returned (trim (decode (take len (drop offset buffer))))
  else Thrown "RangeError: Invalid typed array length".

(** The arguments of [new Date(year, month, day, hours, minutes, seconds)].
    The ISO string produced from them depends on the time zone of the host
    and is not computed here. *)
Record DateFields := mkDateFields {
  date_year : number;
  date_month : number;
  date_day : number;
  date_hours : number;
  date_minutes : number;
  date_seconds : number
}.

Record Header := mkHeader {
  version : string;
  patientId : string;
  recordingId : string;
  startDate : string;
  startTime : string;
  headerBytes : number;
  reserved : string;
  numDataRecords : number;
  recordDurationSec : number;
  numSignals : number;
  recordingDate : DateFields;
  totalDurationMinutes : number
}.

(** [new Date(...).toISOString()] throws a RangeError on an invalid date.
    The date is invalid when the year, the month or the day is NaN. With
    numbers it is always in range: the three of them come from one field
    of eight characters, so each is written with at most four. *)
Definition recordingDateOf (startDate startTime : string) : outcome DateFields :=
  let dateParts := split startDate in
  let year0 := parseInt_part dateParts 2 in
  let year :=
    if negb (is_nan year0)
    then add year0 (if ltb year0 (of_Z 85) then of_Z 2000 else of_Z 1900)
    else year0 in
  let timeParts := split startTime in
  let month := sub (parseInt_part dateParts 1) (of_Z 1) in
  let day := parseInt_part dateParts 0 in
  if is_nan year || is_nan month || is_nan day
  then Thrown "RangeError: Invalid time value"
  else Returned {| date_year := year; date_month := month; date_day := day;
                   date_hours := or_zero (parseInt_part timeParts 0);
                   date_minutes := or_zero (parseInt_part timeParts 1);
                   date_seconds := or_zero (parseInt_part timeParts 2) |}.

Definition parseHeader (buffer : list byte) : outcome Header :=
  version <- getStr buffer 0 8 ;;
  patientId <- getStr buffer 8 80 ;;
  recordingId <- getStr buffer 88 80 ;;
  startDate <- getStr buffer 168 8 ;;
  startTime <- getStr buffer 176 8 ;;
  headerBytes <- getStr buffer 184 8 ;;
  reserved <- getStr buffer 192 44 ;;
  numDataRecords <- getStr buffer 236 8 ;;
  recordDurationSec <- getStr buffer 244 8 ;;
  numSignals <- getStr buffer 252 4 ;;
  recordingDate <- recordingDateOf startDate startTime ;;
  Returned {| version := version; patientId := patientId; recordingId := recordingId;
              startDate := startDate; startTime := startTime;
              headerBytes := parseInt headerBytes; reserved := reserved;
              numDataRecords := parseInt numDataRecords;
              recordDurationSec := parseFloat recordDurationSec;
              numSignals := parseInt numSignals;
              recordingDate := recordingDate;
              totalDurationMinutes :=
                div (mul (parseInt numDataRecords) (parseFloat recordDurationSec)) (of_Z 60)
           |}.

Record Signal := mkSignal {
  label : string;
  transducer : string;
  physicalDimension : string;
  physicalMin : number;
  physicalMax : number;
  digitalMin : number;
  digitalMax : number;
  prefiltering : string;
  numSamplesPerRecord : number;
  samplingRate : number;
  scaleFactor : number;
  physicalValues : list number
}.

(** The number of iterations of [for (i = 0; i < n; i++)]. The bounds of
    the parser's loops come out of [parseInt], which yields an integer or
    NaN and never an infinity. *)
Definition trip_count (n : number) : nat :=
  match n with
  | S754_finite false m e => Z.to_nat (- Z.shiftl (Zneg m) e)
  | _ => 0%nat
  end.

Fixpoint collect {A} (cs : list (outcome A)) : outcome (list A) :=
  match cs with
  | [] => Returned []
  | c :: rest => a <- c ;; l <- collect rest ;; Returned (a :: l)
  end.

(** One block of the signal headers: the entries [getStr(offset + i * width, width)]
    for [i < ns], in this order. *)
Definition read_block (buffer : list byte) (offset width ns : nat) : outcome (list string) :=
  collect (map (fun i => getStr buffer (offset + i * width) width) (seq 0 ns)).

Definition nth_str (l : list string) (i : nat) : string := default EmptyString (l !! i).

(** The signal headers. The blocks are read one after the other, as the
    source does, each loop filling one property of every signal. *)
Definition parseSignals (buffer : list byte) (header : Header) : outcome (list Signal) :=
  let ns := trip_count (numSignals header) in
  let offset := 256%nat in
  labels <- read_block buffer offset 16 ns ;;
  let offset := (offset + ns * 16)%nat in
  transducers <- read_block buffer offset 80 ns ;;
  let offset := (offset + ns * 80)%nat in
  dimensions <- read_block buffer offset 8 ns ;;
  let offset := (offset + ns * 8)%nat in
  physicalMins <- read_block buffer offset 8 ns ;;
  let offset := (offset + ns * 8)%nat in
  physicalMaxs <- read_block buffer offset 8 ns ;;
  let offset := (offset + ns * 8)%nat in
  digitalMins <- read_block buffer offset 8 ns ;;
  let offset := (offset + ns * 8)%nat in
  digitalMaxs <- read_block buffer offset 8 ns ;;
  let offset := (offset + ns * 8)%nat in
  prefilterings <- read_block buffer offset 80 ns ;;
  let offset := (offset + ns * 80)%nat in
  sampleCounts <- read_block buffer offset 8 ns ;;
  Returned
    (map (fun i =>
       let physicalMin := parseFloat (nth_str physicalMins i) in
       let physicalMax := parseFloat (nth_str physicalMaxs i) in
       let digitalMin := parseInt (nth_str digitalMins i) in
       let digitalMax := parseInt (nth_str digitalMaxs i) in
       let numSamplesPerRecord := parseInt (nth_str sampleCounts i) in
       {| label := nth_str labels i;
          transducer := nth_str transducers i;
          physicalDimension := nth_str dimensions i;
          physicalMin := physicalMin;
          physicalMax := physicalMax;
          digitalMin := digitalMin;
          digitalMax := digitalMax;
          prefiltering := nth_str prefilterings i;
          numSamplesPerRecord := numSamplesPerRecord;
          samplingRate := div numSamplesPerRecord (recordDurationSec header);
          scaleFactor := div (sub physicalMax physicalMin) (sub digitalMax digitalMin);
          physicalValues := [] |})
       (seq 0 ns)).

(** The byte offset of the data loop: an integer, or NaN when the header
    field could not be parsed. *)
Definition offset_of (n : number) : integral := floor_integral n.

Definition advance (offset : integral) : integral :=
  match offset with
  | IFin z => IFin (z + 2)
  | o => o
  end.

(** The signed 16-bit little-endian integer at byte [i]. *)
Definition int16_at (buffer : list byte) (i : nat) : option Z :=
  match buffer !! i, buffer !! (S i) with
  | Some lo, Some hi =>
      let u := byte_value lo + 256 * byte_value hi in
      Some (if u <? 32768 then u else u - 65536)
  | _, _ => None
  end.

(** [view.getInt16(offset, true)]: the offset goes through ToIndex, which
    reads NaN as 0 and rejects a negative one. *)
Definition getInt16 (buffer : list byte) (offset : integral) : outcome Z :=
  match offset with
  | IInf _ => Thrown "RangeError: Offset is outside the bounds of the DataView"
  | INaN =>
      match int16_at buffer 0 with
      | Some d => Returned d
      | None => Thrown "RangeError: Offset is outside the bounds of the DataView"
      end
  | IFin z =>
      if z <? 0 then Thrown "RangeError: Offset is outside the bounds of the DataView"
      else match int16_at buffer (Z.to_nat z) with
           | Some d => Returned d
           | None => Thrown "RangeError: Offset is outside the bounds of the DataView"
           end
  end.

Definition physVal (signal : Signal) (digitalValue : Z) : number :=
  add (mul (sub (of_Z digitalValue) (digitalMin signal)) (scaleFactor signal))
      (physicalMin signal).

Definition set_values (signal : Signal) (values : list number) : Signal :=
  {| label := label signal; transducer := transducer signal;
     physicalDimension := physicalDimension signal;
     physicalMin := physicalMin signal; physicalMax := physicalMax signal;
     digitalMin := digitalMin signal; digitalMax := digitalMax signal;
     prefiltering := prefiltering signal;
     numSamplesPerRecord := numSamplesPerRecord signal;
     samplingRate := samplingRate signal; scaleFactor := scaleFactor signal;
     physicalValues := values |}.

(** [signal.physicalValues.push(v)]. *)
Definition push_value (signal : Signal) (v : number) : Signal :=
  set_values signal (physicalValues signal ++ [v]).

(** The loop over [s]: [samples] reads, each pushed on the signal. (The
    [if] on the label that follows the conversion has an empty body.) *)
Fixpoint read_samples (buffer : list byte) (samples : nat) (signal : Signal)
    (offset : integral) : outcome (Signal * integral) :=
  match samples with
  | O => Returned (signal, offset)
  | S samples' =>
      digitalValue <- getInt16 buffer offset ;;
      read_samples buffer samples' (push_value signal (physVal signal digitalValue))
        (advance offset)
  end.

(** The loop over [sig] inside one data record. *)
Fixpoint read_record (buffer : list byte) (signals : list Signal)
    (offset : integral) : outcome (list Signal * integral) :=
  match signals with
  | [] => Returned ([], offset)
  | signal :: rest =>
      '(signal', offset') <-
        read_samples buffer (trip_count (numSamplesPerRecord signal)) signal offset ;;
      '(rest', offset'') <- read_record buffer rest offset' ;;
      Returned (signal' :: rest', offset'')
  end.

(** The loop over [record]. *)
Fixpoint read_records (buffer : list byte) (records : nat) (signals : list Signal)
    (offset : integral) : outcome (list Signal) :=
  match records with
  | O => Returned signals
  | S records' =>
      '(signals', offset') <- read_record buffer signals offset ;;
      read_records buffer records' signals' offset'
  end.

Definition is_flow (s : Signal) : bool :=
  includes (toLowerCase (label s)) "flow" || includes (toLowerCase (label s)) "flw".

Record Recording := mkRecording {
  metadata : Header;
  signals : list Signal;
  flowSignal : option Signal
}.

Definition parse (buffer : list byte) : outcome Recording :=
  header <- parseHeader buffer ;;
  signals0 <- parseSignals buffer header ;;
  signals <- read_records buffer (trip_count (numDataRecords header)) signals0
               (offset_of (headerBytes header)) ;;
  Returned {| metadata := header; signals := signals;
              flowSignal := List.find is_flow signals |}.

(** *** The layout of the data records, in the words of the format *)

(** The samples of a signal in one record, and the samples of all the
    signals in one record. *)
Definition samples_of (signal : Signal) : nat := trip_count (numSamplesPerRecord signal).
Definition record_samples (signals : list Signal) : nat :=
  fold_right (fun signal n => (samples_of signal + n)%nat) 0%nat signals.

(** The physical values of the [n] samples stored from byte [o] on. *)
Fixpoint chunk (buffer : list byte) (signal : Signal) (o n : nat) : list number :=
  match n with
  | O => []
  | S n' =>
      physVal signal (default 0 (int16_at buffer o)) :: chunk buffer signal (o + 2) n'
  end.

(** The values of one signal over [records] records of [R] samples each,
    its slot in the first record being at byte [o]. *)
Fixpoint all_chunks (buffer : list byte) (signal : Signal) (o R records : nat) : list number :=
  match records with
  | O => []
  | S records' =>
      chunk buffer signal o (samples_of signal)
      ++ all_chunks buffer signal (o + 2 * R) R records'
  end.

(** The signals after one record read from byte [o], and after [records]
    records. *)
Fixpoint fill_record (buffer : list byte) (signals : list Signal) (o : nat) : list Signal :=
  match signals with
  | [] => []
  | signal :: rest =>
      set_values signal (physicalValues signal ++ chunk buffer signal o (samples_of signal))
      :: fill_record buffer rest (o + 2 * samples_of signal)
  end.

Fixpoint fill_records (buffer : list byte) (records : nat) (signals : list Signal)
    (o : nat) : list Signal :=
  match records with
  | O => signals
  | S records' =>
      fill_records buffer records' (fill_record buffer signals o)
        (o + 2 * record_samples signals)
  end.

End EDF.

(* ===================================================================== *)
(** ** Sample inputs *)
(* ===================================================================== *)

(** One breath of ten samples with a single spike. *)
Definition spike_flow : list number :=
  map of_Z [-1; 1; 1; 1; 1; 10; 1; 1; 1; 1; 1; -1].


(** Sixty-one samples at 1 Hz, thirty breaths: one window of minute
    ventilation. *)
Definition one_window_flow : list number :=
  map of_Z (-1 :: concat (repeat [1; -1] 30)).

(** A container with two signals, "Flow" with 2 samples per record and
    "Press" with 1, and two data records; the digital range of "Flow" is
    a parameter. *)
Definition field (s : string) (width : nat) : list byte :=
  take width (list_byte_of_string s ++ repeat x20 width).

Definition byte_of (n : Z) : byte :=
  default x00 (Byte.of_N (Z.to_N (n mod 256))).

Definition le16 (z : Z) : list byte :=
  [byte_of (z mod 65536); byte_of ((z mod 65536) / 256)].

Definition container (flowDigitalMin flowDigitalMax : string) : list byte :=
  field "0" 8 ++ field "X" 80 ++ field "R" 80
  ++ field "01.02.20" 8 ++ field "03.04.05" 8
  ++ field "768" 8 ++ field "" 44 ++ field "2" 8 ++ field "1" 8 ++ field "2" 4
  ++ field "Flow" 16 ++ field "Press" 16
  ++ field "" 80 ++ field "" 80
  ++ field "L/s" 8 ++ field "cmH2O" 8
  ++ field "-1" 8 ++ field "0" 8
  ++ field "1" 8 ++ field "20" 8
  ++ field flowDigitalMin 8 ++ field "0" 8
  ++ field flowDigitalMax 8 ++ field "1000" 8
  ++ field "" 80 ++ field "" 80
  ++ field "2" 8 ++ field "1" 8
  ++ field "" 32 ++ field "" 32
  ++ le16 100 ++ le16 (-100) ++ le16 500
  ++ le16 0 ++ le16 50 ++ le16 1000.

Definition sample_container : list byte := container "-100" "100".
Definition degenerate_container : list byte := container "100" "100".

(** Tools that log their call in a world made of the list of calls: one
    always throws an [Error] with the message "boom", one always returns
    42; two that share the id "shared", the earlier returning 7 and the
    later throwing; and one that throws [null]. *)
Definition faulty_tool : Engine.Analyzer nat (list string) :=
  {| Engine.id := Some "faulty"%string; Engine.name := Some "Faulty"%string;
     Engine.process := Some (fun _ _ _ w =>
       (Engine.Raise (Engine.RaisedValue (Some "boom"%string)), w ++ ["faulty"%string]));
     Engine.tableColumns := Some [] |}.
Definition steady_tool : Engine.Analyzer nat (list string) :=
  {| Engine.id := Some "steady"%string; Engine.name := Some "Steady"%string;
     Engine.process := Some (fun _ _ _ w => (Engine.Finished 42%nat, w ++ ["steady"%string]));
     Engine.tableColumns := Some [] |}.
Definition early_tool : Engine.Analyzer nat (list string) :=
  {| Engine.id := Some "shared"%string; Engine.name := Some "Early"%string;
     Engine.process := Some (fun _ _ _ w => (Engine.Finished 7%nat, w ++ ["early"%string]));
     Engine.tableColumns := Some [] |}.
Definition late_tool : Engine.Analyzer nat (list string) :=
  {| Engine.id := Some "shared"%string; Engine.name := Some "Late"%string;
     Engine.process := Some (fun _ _ _ w =>
       (Engine.Raise (Engine.RaisedValue (Some "boom"%string)), w ++ ["late"%string]));
     Engine.tableColumns := Some [] |}.
Definition null_tool : Engine.Analyzer nat (list string) :=
  {| Engine.id := Some "null"%string; Engine.name := Some "Null"%string;
     Engine.process := Some (fun _ _ _ w => (Engine.Raise Engine.RaisedNull, w ++ ["null"%string]));
     Engine.tableColumns := Some [] |}.

(* ===================================================================== *)
(** * Properties *)
(* ===================================================================== *)

Import Wobble.

(** ** Numbers *)

Example literal_tenth :
  of_decimal 1 (-1) = S754_finite false 7205759403792794 (-56).
Proof. vm_compute. reflexivity. Qed.

Example parseFloat_samples :
  EDF.parseFloat "0.5" = of_decimal 5 (-1)
  /\ EDF.parseFloat "-1.5e2x" = of_Z (-150)
  /\ EDF.parseFloat "1." = of_Z 1
  /\ EDF.parseFloat "." = NaN
  /\ EDF.parseFloat "-Infinity" = NegInfinity.
Proof. repeat split; vm_compute; reflexivity. Qed.

Example parseInt_samples :
  EDF.parseInt "0x1F" = of_Z 31
  /\ EDF.parseInt " 12ab" = of_Z 12
  /\ EDF.parseInt "-0" = S754_zero true
  /\ EDF.parseInt "" = NaN
  /\ EDF.trip_count (EDF.parseInt "256") = 256%nat.
Proof. repeat split; vm_compute; reflexivity. Qed.

Lemma gtb_zero_leb_zero (x : number) : gtb x zero = true -> leb x zero = false.
Proof. destruct x as [s|s| |s m e]; try destruct s; cbn; congruence. Qed.

(** For a number that is a non-negative integer, the loop
    [for (i = 0; i < n; i++)] makes that many iterations, and the number
    is its own floor. *)
Lemma trip_count_integer (n : number) (z : Z) :
  integer_value n = Some z -> EDF.trip_count n = Z.to_nat z.
Proof.
  destruct n as [s|s| |s m e]; cbn; try discriminate.
  - intros [= <-]. reflexivity.
  - destruct (0 <=? e) eqn:He.
    + apply Z.leb_le in He. intros [= <-]. destruct s.
      * assert (0 < 2 ^ e) by (apply Z.pow_pos_nonneg; lia). lia.
      * rewrite Z.shiftl_mul_pow2 by exact He. f_equal. lia.
    + apply Z.leb_gt in He.
      destruct (_ mod _ =? 0) eqn:Hm; [|discriminate]. apply Z.eqb_eq in Hm.
      intros [= <-].
      assert (Hp : 0 < 2 ^ (- e)) by (apply Z.pow_pos_nonneg; lia).
      destruct s.
      * assert (Z.neg m / 2 ^ (- e) <= 0) by (apply Z.div_le_upper_bound; lia). lia.
      * rewrite <- (Z.shiftr_opp_r (Z.neg m) e), Z.shiftr_div_pow2 by lia.
        f_equal. change (Z.neg m) with (- Z.pos m).
        rewrite Z.div_opp_l_z by lia. lia.
Qed.

Lemma floor_integral_integer (n : number) (z : Z) :
  integer_value n = Some z -> floor_integral n = IFin z.
Proof.
  destruct n as [s|s| |s m e]; cbn; try discriminate.
  - now intros [= <-].
  - destruct (0 <=? e) eqn:He.
    + apply Z.leb_le in He. intros [= <-]. now rewrite Z.shiftl_mul_pow2.
    + apply Z.leb_gt in He.
      destruct (_ mod _ =? 0) eqn:Hm; [|discriminate].
      intros [= <-]. f_equal.
      rewrite <- (Z.shiftr_opp_r _ e), Z.shiftr_div_pow2 by lia. reflexivity.
Qed.

Lemma rising_not_falling (flow : list number) (i : nat) :
  rising flow i = true -> falling flow i = false.
Proof.
  unfold rising, falling. intros H.
  apply andb_true_iff in H as [H _].
  now rewrite (gtb_zero_leb_zero _ H).
Qed.

(** ** Breath segmentation *)

Lemma find_snoc {A} (p : A -> bool) (l : list A) (x : A) :
  List.find p (l ++ [x]) =
  match List.find p l with
  | Some y => Some y
  | None => if p x then Some x else None
  end.
Proof.
  induction l as [|a l IH]; cbn.
  - reflexivity.
  - destruct (p a); [reflexivity | exact IH].
Qed.

Lemma next_crossing_S (flow : list number) (i n : nat) :
  (i <= n)%nat ->
  next_crossing flow i (S n) =
  match next_crossing flow i n with
  | Some j => Some j
  | None => if crossing flow (S n) then Some (S n) else None
  end.
Proof.
  intros Hle. unfold next_crossing.
  replace (S n - i)%nat with (S (n - i)) by lia.
  rewrite seq_S, find_snoc.
  replace (S i + (n - i))%nat with (S n) by lia.
  reflexivity.
Qed.

Lemma next_crossing_self (flow : list number) (n : nat) :
  next_crossing flow n n = None.
Proof. unfold next_crossing. now rewrite Nat.sub_diag. Qed.

Lemma seg_loop_S (flow : list number) (sr : number) (n : nat) :
  seg_loop flow sr (S n) = seg_step flow sr (seg_loop flow sr n) (S n).
Proof. unfold seg_loop. now rewrite seq_S, fold_left_app. Qed.

Lemma risings_le (flow : list number) (n i : nat) :
  In i (List.filter (rising flow) (seq 1 n)) -> (1 <= i <= n)%nat /\ rising flow i = true.
Proof.
  intros H. apply filter_In in H as [H1 H2]. apply in_seq in H1. split; [lia | exact H2].
Qed.

Lemma breath_at_S_rising (flow : list number) (sr : number) (n i : nat) :
  (i <= n)%nat -> rising flow (S n) = true ->
  breath_at flow sr (S n) i = breath_at flow sr n i.
Proof.
  intros Hle Hr. unfold breath_at. rewrite next_crossing_S by exact Hle.
  destruct (next_crossing flow i n); [reflexivity|].
  unfold crossing. rewrite Hr. cbn. now rewrite (rising_not_falling _ _ Hr).
Qed.

Lemma breath_at_S_quiet (flow : list number) (sr : number) (n i : nat) :
  (i <= n)%nat -> crossing flow (S n) = false ->
  breath_at flow sr (S n) i = breath_at flow sr n i.
Proof.
  intros Hle Hc. unfold breath_at. rewrite next_crossing_S by exact Hle.
  destruct (next_crossing flow i n); [reflexivity|]. now rewrite Hc.
Qed.

Lemma breath_at_S_crossed (flow : list number) (sr : number) (n i : nat) :
  (i <= n)%nat -> next_crossing flow i n <> None ->
  breath_at flow sr (S n) i = breath_at flow sr n i.
Proof.
  intros Hle Hc. unfold breath_at. rewrite next_crossing_S by exact Hle.
  destruct (next_crossing flow i n); [reflexivity | congruence].
Qed.

Lemma breath_at_S_falling (flow : list number) (sr : number) (n i : nat) :
  (i <= n)%nat -> next_crossing flow i n = None -> falling flow (S n) = true ->
  breath_at flow sr (S n) i = close_breath (S n) sr (breath_at flow sr n i).
Proof.
  intros Hle Hc Hf. unfold breath_at. rewrite next_crossing_S by exact Hle.
  rewrite Hc. unfold crossing. rewrite Hf, orb_true_r, Hf. reflexivity.
Qed.

Lemma map_breath_at_ext (flow : list number) (sr : number) (n : nat) (l : list nat) :
  Forall (fun i => breath_at flow sr (S n) i = breath_at flow sr n i) l ->
  map (breath_at flow sr (S n)) l = map (breath_at flow sr n) l.
Proof. induction 1; cbn; congruence. Qed.

(** Every start but the last one has met a crossing: the next start. *)
Lemma earlier_starts_crossed (flow : list number) (n : nat) (l : list nat) (i : nat) :
  List.filter (rising flow) (seq 1 n) = l ++ [i] ->
  Forall (fun i' => (i' <= n)%nat /\ next_crossing flow i' n <> None) l.
Proof.
  revert l i. induction n as [|n IH]; intros l i H.
  - cbn in H. destruct l; discriminate.
  - rewrite seq_S, List.filter_app in H. cbn in H.
    destruct (rising flow (S n)) eqn:Hr.
    + apply app_inj_tail in H as [<- <-].
      apply Forall_forall. intros i' Hin.
      apply list_elem_of_In, risings_le in Hin as [Hle _].
      split; [lia|]. rewrite next_crossing_S by lia.
      destruct (next_crossing flow i' n); [congruence|].
      unfold crossing. rewrite Hr. cbn. congruence.
    + rewrite app_nil_r in H. specialize (IH _ _ H).
      eapply Forall_impl; [exact IH|]. cbn. intros i' [Hle Hc].
      split; [lia|]. rewrite next_crossing_S by lia.
      destruct (next_crossing flow i' n); congruence.
Qed.

Lemma seg_step_cases (flow : list number) (sr : number) (st : SegState) (i : nat) :
  seg_step flow sr st i =
  if rising flow i then
    {| breaths := breaths st ++ [opened sr i]; inInspiration := true;
       inspirationStart := i; currentBreath := Some (length (breaths st)) |}
  else if falling flow i then
    {| breaths :=
         if inInspiration st then
           match currentBreath st with
           | Some k => alter (close_breath i sr) k (breaths st)
           | None => breaths st
           end
         else breaths st;
       inInspiration := false;
       inspirationStart := inspirationStart st;
       currentBreath := currentBreath st |}
  else st.
Proof. reflexivity. Qed.

Lemma snoc_cases {A} (l : list A) : l = [] \/ exists l' x, l = l' ++ [x].
Proof.
  destruct l as [|a l] using rev_ind; [now left | right; eauto].
Qed.

(** The loop computes [seg_state]. *)
Lemma seg_loop_state (flow : list number) (sr : number) (n : nat) :
  seg_loop flow sr n = seg_state flow sr n.
Proof.
  induction n as [|n IH]; [reflexivity|].
  rewrite seg_loop_S, IH, seg_step_cases.
  unfold seg_state, segment_upto. cbn [breaths inInspiration inspirationStart currentBreath].
  rewrite seq_S, List.filter_app. cbn [List.filter Nat.add].
  set (L := List.filter (rising flow) (seq 1 n)).
  assert (HL : Forall (fun i => (i <= n)%nat) L).
  { apply Forall_forall. intros i Hi. apply list_elem_of_In, risings_le in Hi. lia. }
  destruct (rising flow (S n)) eqn:Hr.
  - rewrite map_app, last_snoc, next_crossing_self. cbn.
    rewrite length_map, length_app. cbn.
    rewrite map_breath_at_ext.
    2:{ eapply Forall_impl; [exact HL|]. cbn. intros i Hi.
        now apply breath_at_S_rising. }
    replace (breath_at flow sr (S n) (S n)) with (opened sr (S n))
      by (unfold breath_at; now rewrite next_crossing_self).
    replace (length L + 1 - 1)%nat with (length L) by lia.
    destruct L; reflexivity.
  - rewrite app_nil_r.
    destruct (falling flow (S n)) eqn:Hf.
    + destruct (snoc_cases L) as [HLe | (l & i & HLe)].
      * rewrite HLe. reflexivity.
      * pose proof (earlier_starts_crossed flow n l i HLe) as Hpre.
        assert (Hi : (i <= n)%nat).
        { rewrite Forall_forall in HL. apply HL. rewrite HLe. set_solver. }
        rewrite HLe.
        rewrite last_snoc, !map_app. cbn [map].
        rewrite (map_breath_at_ext flow sr n l).
        2:{ eapply Forall_impl; [exact Hpre|]. cbn. intros i' [Hle Hc].
            now apply breath_at_S_crossed. }
        assert (Hnext : bool_decide (next_crossing flow i (S n) = None) = false).
        { apply bool_decide_eq_false_2. rewrite next_crossing_S by exact Hi.
          destruct (next_crossing flow i n); [congruence|].
          unfold crossing. rewrite Hf, orb_true_r. congruence. }
        rewrite Hnext.
        assert (Hcur : match l ++ [i] with [] => None | _ :: _ => Some (length (l ++ [i]) - 1)%nat end
                       = Some (length (map (breath_at flow sr n) l) + 0)%nat).
        { rewrite length_map, length_app. cbn. destruct l; cbn; f_equal; lia. }
        rewrite Hcur.
        destruct (next_crossing flow i n) eqn:Hn.
        -- rewrite bool_decide_eq_false_2 by congruence.
           rewrite (breath_at_S_crossed flow sr n i) by (auto; congruence).
           reflexivity.
        -- rewrite bool_decide_eq_true_2 by reflexivity.
           rewrite alter_app_r. cbn.
           rewrite (breath_at_S_falling flow sr n i) by auto.
           reflexivity.
    + assert (Hc : crossing flow (S n) = false) by (unfold crossing; now rewrite Hr, Hf).
      rewrite map_breath_at_ext.
      2:{ eapply Forall_impl; [exact HL|]. cbn. intros i Hi.
          now apply breath_at_S_quiet. }
      destruct (snoc_cases L) as [HLe | (l & i & HLe)].
      * rewrite HLe. reflexivity.
      * assert (Hi : (i <= n)%nat).
        { rewrite Forall_forall in HL. apply HL. rewrite HLe. set_solver. }
        rewrite HLe.
        rewrite last_snoc. rewrite next_crossing_S by exact Hi. rewrite Hc.
        destruct (next_crossing flow i n); reflexivity.
Qed.

Lemma segment_eq (flow : list number) (sr : number) :
  segment flow sr = segment_upto flow sr (length flow - 1).
Proof. unfold segment. now rewrite seg_loop_state. Qed.

Lemma in_segment_upto (flow : list number) (sr : number) (n : nat) (b : Breath) :
  In b (segment_upto flow sr n) ->
  exists i, (1 <= i <= n)%nat /\ rising flow i = true /\ b = breath_at flow sr n i.
Proof.
  unfold segment_upto. intros H. apply in_map_iff in H as (i & Hb & Hi).
  apply risings_le in Hi as [Hle Hr]. eauto.
Qed.

Lemma next_crossing_some (flow : list number) (i n j : nat) :
  next_crossing flow i n = Some j -> (i < j <= n)%nat /\ crossing flow j = true.
Proof.
  unfold next_crossing. intros H. apply find_some in H as [H1 H2].
  apply in_seq in H1. split; [lia | exact H2].
Qed.

(** No index after the last start is a rising crossing. *)
Lemma last_start_max (flow : list number) (n : nat) (l : list nat) (x : nat) :
  List.filter (rising flow) (seq 1 n) = l ++ [x] ->
  forall j, (x < j <= n)%nat -> rising flow j = false.
Proof.
  revert l x. induction n as [|n IH]; intros l x H j Hj.
  - cbn in H. destruct l; discriminate.
  - rewrite seq_S, List.filter_app in H. cbn in H.
    destruct (rising flow (S n)) eqn:Hr.
    + apply app_inj_tail in H as [_ <-]. lia.
    + rewrite app_nil_r in H.
      destruct (decide (j = S n)) as [->|Hne]; [exact Hr|].
      apply (IH _ _ H). lia.
Qed.

(** What the breath that starts at [i] looks like at the end. *)
Lemma breath_at_shape (flow : list number) (sr : number) (n i : nat) :
  let b := breath_at flow sr n i in
  start b = i /\ inspStart b = i /\ startTime b = div (of_nat i) sr /\
  match next_crossing flow i n with
  | Some j =>
      if falling flow j
      then end_ b = j /\ inspEnd b = j /\ endTime b = Some (div (of_nat j) sr)
      else end_ b = i /\ inspEnd b = i /\ endTime b = None
  | None => end_ b = i /\ inspEnd b = i /\ endTime b = None
  end.
Proof.
  unfold breath_at. destruct (next_crossing flow i n) as [j|]; cbn.
  - destruct (falling flow j); cbn; repeat split.
  - repeat split.
Qed.

(** C3. Segmentation opens a breath exactly at the rising crossings
    [i >= 1] (flow[i] > 0 and flow[i-1] <= 0), in increasing order; the
    breath opened at [i] has startTime = i / samplingRate and, while it
    is the open one, is closed at the next falling crossing [j]
    (flow[j] <= 0 and flow[j-1] > 0): its end is [j] when the first
    crossing after [i] is that falling one, and it is left as created
    otherwise. The flow [-1,1,-1,1,-1] at 1 Hz gives exactly two breaths,
    starting at 1 and 3. *)
Theorem C3_breath_segmentation (flow : list number) (sr : number) :
  map start (segment flow sr) = List.filter (rising flow) (seq 1 (length flow - 1))
  /\ (forall b, In b (segment flow sr) ->
        startTime b = div (of_nat (start b)) sr /\
        match next_crossing flow (start b) (length flow - 1) with
        | Some j =>
            if falling flow j
            then end_ b = j /\ inspEnd b = j /\ endTime b = Some (div (of_nat j) sr)
            else end_ b = start b /\ endTime b = None
        | None => end_ b = start b /\ endTime b = None
        end)
  /\ segment [of_Z (-1); of_Z 1; of_Z (-1); of_Z 1; of_Z (-1)] (of_Z 1)
     = [ {| start := 1; end_ := 2; inspStart := 1; inspEnd := 2;
            startTime := of_Z 1; endTime := Some (of_Z 2) |};
         {| start := 3; end_ := 4; inspStart := 3; inspEnd := 4;
            startTime := of_Z 3; endTime := Some (of_Z 4) |} ].
Proof.
  split; [|split].
  - rewrite segment_eq. unfold segment_upto. rewrite map_map.
    induction (List.filter (rising flow) (seq 1 (length flow - 1))) as [|i l IH]; cbn.
    + reflexivity.
    + rewrite IH. f_equal. apply (breath_at_shape flow sr (length flow - 1) i).
  - intros b Hb. rewrite segment_eq in Hb.
    apply in_segment_upto in Hb as (i & _ & _ & ->).
    destruct (breath_at_shape flow sr (length flow - 1) i) as (Hs & _ & Ht & Hc).
    rewrite Hs. split; [exact Ht|].
    destruct (next_crossing flow i (length flow - 1)) as [j|].
    + destruct (falling flow j); tauto.
    + tauto.
  - vm_compute. reflexivity.
Qed.

(** C9, as the code has it. When the waveform ends while a breath is open
    (a rising crossing with no falling crossing after it), the last breath
    still holds what its creation wrote, end = inspEnd = start, and has no
    endTime; and every breath that has an endTime (a closed breath)
    satisfies start < inspEnd <= end. *)
Theorem C9_trailing_breath (flow : list number) (sr : number) :
  (exists i, (1 <= i < length flow)%nat /\ rising flow i = true /\
             forall j, (i < j < length flow)%nat -> falling flow j = false) ->
  (exists b, last (segment flow sr) = Some b /\
             endTime b = None /\ end_ b = start b /\ inspEnd b = start b)
  /\ (forall b, In b (segment flow sr) -> endTime b <> None ->
        (start b < inspEnd b)%nat /\ (inspEnd b <= end_ b)%nat).
Proof.
  intros (i & Hi & Hr & Hnf). rewrite segment_eq.
  set (n := (length flow - 1)%nat). split.
  - assert (Hin : In i (List.filter (rising flow) (seq 1 n))).
    { apply filter_In. split; [apply in_seq; lia | exact Hr]. }
    unfold segment_upto.
    destruct (snoc_cases (List.filter (rising flow) (seq 1 n))) as [He | (l & x & He)].
    { rewrite He in Hin. destruct Hin. }
    rewrite He, map_app. cbn [map]. rewrite last_snoc. eexists. split; [reflexivity|].
    assert (Hx : (x <= n)%nat).
    { assert (Hx : In x (List.filter (rising flow) (seq 1 n)))
        by (rewrite He; apply in_or_app; right; now left).
      apply risings_le in Hx. lia. }
    assert (Hix : (i <= x)%nat).
    { destruct (le_lt_dec i x) as [|Hlt]; [assumption|].
      rewrite (last_start_max flow n l x He i) in Hr by lia. discriminate. }
    pose proof (breath_at_shape flow sr n x) as (Hs & _ & _ & Hc).
    rewrite Hs. destruct (next_crossing flow x n) as [j|] eqn:Hn.
    + apply next_crossing_some in Hn as [Hj Hcj].
      unfold crossing in Hcj.
      rewrite (last_start_max flow n l x He j) in Hcj by lia.
      rewrite Hnf in Hcj by lia. discriminate.
    + tauto.
  - intros b Hb Hend. apply in_segment_upto in Hb as (k & _ & _ & ->).
    pose proof (breath_at_shape flow sr n k) as (Hs & _ & _ & Hc).
    rewrite Hs. destruct (next_crossing flow k n) as [j|] eqn:Hn.
    + apply next_crossing_some in Hn as [Hj _].
      destruct (falling flow j).
      * destruct Hc as (-> & -> & _). lia.
      * destruct Hc as (_ & _ & Hc). congruence.
    + destruct Hc as (_ & _ & Hc). congruence.
Qed.

Lemma C9_trailing_breath_witness :
  (exists b, last (segment [of_Z (-1); of_Z 1] (of_Z 1)) = Some b /\
             endTime b = None /\ end_ b = start b /\ inspEnd b = start b)
  /\ (forall b, In b (segment [of_Z (-1); of_Z 1] (of_Z 1)) -> endTime b <> None ->
        (start b < inspEnd b)%nat /\ (inspEnd b <= end_ b)%nat).
Proof.
  apply (C9_trailing_breath [of_Z (-1); of_Z 1] (of_Z 1)).
  exists 1%nat. split; [cbn; lia|]. split; [vm_compute; reflexivity|].
  intros j Hj. cbn in Hj. lia.
Defined.

(** C9 as stated fails on the flow [-1, 1]: it ends while its only breath
    is open, yet reading [end] on that breath yields 1 (it is not unset),
    and with [end] present start < inspEnd does not hold. *)
Lemma C9_counterexample :
  let flow := [of_Z (-1); of_Z 1] in
  (rising flow 1 = true /\ forall j, (1 < j < length flow)%nat -> falling flow j = false)
  /\ ~ (exists b, last (segment flow (of_Z 1)) = Some b /\ property_end b = None)
  /\ ~ (forall b e, In b (segment flow (of_Z 1)) -> property_end b = Some e ->
          (start b < inspEnd b)%nat /\ (inspEnd b <= e)%nat).
Proof.
  cbn zeta. split; [|split].
  - split; [vm_compute; reflexivity|]. intros j Hj. cbn in Hj. lia.
  - intros (b & _ & H). discriminate H.
  - intros H.
    specialize (H (opened (of_Z 1) 1) 1%nat).
    assert (Hin : In (opened (of_Z 1) 1) (segment [of_Z (-1); of_Z 1] (of_Z 1)))
      by (vm_compute; now left).
    destruct (H Hin eq_refl) as [Hlt _]. cbn in Hlt. lia.
Qed.

(** ** Flow limitation *)

Lemma SFcompare_antisym (a b : number) :
  SFcompare b a = option_map CompOpp (SFcompare a b).
Proof.
  destruct a as [sa|sa| |sa ma ea], b as [sb|sb| |sb mb eb]; cbn;
    try destruct sa; try destruct sb; try reflexivity.
  - rewrite (Z.compare_antisym ea eb). destruct (ea ?= eb)%Z; cbn; try reflexivity.
    pose proof (Pos.compare_cont_antisym ma mb Eq) as H. cbn in H.
    change (PosDef.Pos.compare_cont Eq mb ma) with (Pos.compare_cont Eq mb ma).
    now rewrite <- H.
  - rewrite (Z.compare_antisym ea eb). destruct (ea ?= eb)%Z; cbn; try reflexivity.
    pose proof (Pos.compare_cont_antisym ma mb Eq) as H. cbn in H.
    change (PosDef.Pos.compare_cont Eq mb ma) with (Pos.compare_cont Eq mb ma).
    now rewrite <- H.
Qed.

Lemma geb_not_ltb (a b : number) : geb a b = true -> ltb a b = false.
Proof.
  unfold geb, ltb, SFleb, SFltb. rewrite (SFcompare_antisym a b).
  destruct (SFcompare a b) as [[]|]; cbn; congruence.
Qed.

Lemma findIndex_first {A} (p : A -> bool) (xs : list A) :
  findIndex p xs = match first_index p xs with Some k => Z.of_nat k | None => -1 end.
Proof.
  induction xs as [|x xs IH]; cbn; [reflexivity|].
  destruct (p x); [reflexivity|]. rewrite IH.
  destruct (first_index p xs) as [k|]; cbn; [|reflexivity].
  destruct (Z.of_nat k) eqn:Hk; lia.
Qed.

Lemma first_index_snoc {A} (p : A -> bool) (l : list A) (x : A) :
  first_index p (l ++ [x]) =
  match first_index p l with
  | Some k => Some k
  | None => if p x then Some (length l) else None
  end.
Proof.
  induction l as [|a l IH]; cbn.
  - destruct (p x); reflexivity.
  - destruct (p a); [reflexivity|]. rewrite IH.
    destruct (first_index p l); cbn; [reflexivity|]. destruct (p x); reflexivity.
Qed.

Lemma last_index_lt {A} (p : A -> bool) (xs : list A) (l : nat) :
  last_index p xs = Some l -> (l < length xs)%nat.
Proof.
  revert l. induction xs as [|x xs IH]; cbn; intros l H; [discriminate|].
  destruct (last_index p xs) as [k|].
  - injection H as <-. specialize (IH k eq_refl). lia.
  - destruct (p x); [injection H as <-; lia | discriminate].
Qed.

Lemma first_index_rev {A} (p : A -> bool) (xs : list A) :
  first_index p (rev xs) =
  option_map (fun l => (length xs - 1 - l)%nat) (last_index p xs).
Proof.
  induction xs as [|x xs IH]; cbn [rev last_index]; [reflexivity|].
  rewrite first_index_snoc, IH.
  destruct (last_index p xs) as [k|] eqn:Hk; cbn.
  - apply last_index_lt in Hk. f_equal. lia.
  - destruct (p x); cbn; [|reflexivity]. rewrite length_rev. f_equal. lia.
Qed.

Lemma first_le_last {A} (p : A -> bool) (xs : list A) (f l : nat) :
  first_index p xs = Some f -> last_index p xs = Some l -> (f <= l)%nat.
Proof.
  revert f l. induction xs as [|x xs IH]; cbn; intros f l Hf Hl; [discriminate|].
  destruct (p x).
  - injection Hf as <-. lia.
  - destruct (first_index p xs) as [f'|]; [|discriminate]. injection Hf as <-.
    destruct (last_index p xs) as [l'|]; [|discriminate]. injection Hl as <-.
    specialize (IH f' l' eq_refl eq_refl). lia.
Qed.

Lemma first_none_last_none {A} (p : A -> bool) (xs : list A) :
  first_index p xs = None <-> last_index p xs = None.
Proof.
  induction xs as [|x xs IH]; cbn; [tauto|].
  destruct (p x).
  - destruct (last_index p xs); split; discriminate.
  - destruct (first_index p xs), (last_index p xs); cbn; split; try discriminate; try tauto.
    + intros _. destruct IH as [_ IH]. discriminate (IH eq_refl).
    + intros _. destruct IH as [IH _]. discriminate (IH eq_refl).
Qed.

Lemma slice_length {A} (xs : list A) (b e : nat) :
  (e <= length xs)%nat -> length (slice xs b e) = (e - b)%nat.
Proof. intros H. unfold slice. rewrite length_take, length_drop. lia. Qed.

(** The loop body computes the flatness as the specification words it,
    and never throws. *)
Lemma breath_flatness_stated (flow : list number) (settings : Settings) (b : Breath) :
  breath_flatness flow settings b = Returned (flatness_stated flow settings b).
Proof.
  unfold breath_flatness, flatness_stated, normalized_inspiration.
  set (inspFlow := slice flow (inspStart b) (inspEnd b)).
  set (normalizedFlow := map (fun f => div f (Math_max_list inspFlow)) inspFlow).
  set (above := fun f => gtb f (topPercent settings)).
  destruct (length inspFlow <? 10)%nat; [reflexivity|].
  destruct (ltb (Math_max_list inspFlow) (of_decimal 1 (-1))); [reflexivity|].
  rewrite !findIndex_first, first_index_rev.
  destruct (first_index above normalizedFlow) as [f|] eqn:Hf.
  - destruct (last_index above normalizedFlow) as [l|] eqn:Hl.
    2:{ apply first_none_last_none in Hl. congruence. }
    pose proof (first_le_last _ _ _ _ Hf Hl) as Hfl.
    pose proof (last_index_lt _ _ _ Hl) as Hlen.
    cbn [option_map].
    replace (Z.of_nat (length normalizedFlow)
             - Z.of_nat (length normalizedFlow - 1 - l))
      with (Z.of_nat (S l)) by lia.
    replace ((0 <=? Z.of_nat f) && (Z.of_nat f <? Z.of_nat (S l))) with true
      by (symmetry; apply andb_true_iff; split; [apply Z.leb_le | apply Z.ltb_lt]; lia).
    rewrite !Nat2Z.id. unfold mean_of, variance.
    assert (Hne : length (slice normalizedFlow f (S l)) = (S l - f)%nat)
      by (apply slice_length; lia).
    destruct (slice normalizedFlow f (S l)) as [|x rest] eqn:Hs.
    { cbn in Hne. lia. }
    reflexivity.
  - destruct (last_index above normalizedFlow) as [l|] eqn:Hl.
    { apply first_none_last_none in Hf. congruence. }
    reflexivity.
Qed.

Lemma flScores_stated (flow : list number) (settings : Settings) (bs : list Breath) :
  flScores flow settings bs = Returned (omap (flatness_stated flow settings) bs).
Proof.
  induction bs as [|b bs IH]; cbn [flScores omap]; [reflexivity|].
  rewrite breath_flatness_stated, IH. cbn.
  destruct (flatness_stated flow settings b); reflexivity.
Qed.

(** C5, as the code has it. A breath counts when its inspiratory span has
    at least 10 samples, its peak is at least 0.1 and some normalized
    sample exceeds flTopPercentage; the last such index is then the first
    one or a later one. Its flatness is
    max(0, min(100, (target - variance) / target * 100)) with the
    variance of the normalized samples from the first to the last such
    index, both included. The scores of the analyzer are the flatness of
    the breaths that count, in order; the result is their mean, and 0
    when there is none. With the default target 0.05 a variance of 0
    gives 100. *)
Theorem C5_flow_limitation (flow : list number) (settings : Settings) (b : Breath)
    (first last : nat) :
  (10 <= length (slice flow (inspStart b) (inspEnd b)))%nat ->
  geb (Math_max_list (slice flow (inspStart b) (inspEnd b))) (of_decimal 1 (-1)) = true ->
  first_index (fun f => gtb f (topPercent settings)) (normalized_inspiration flow b)
    = Some first ->
  last_index (fun f => gtb f (topPercent settings)) (normalized_inspiration flow b)
    = Some last ->
  (first <= last)%nat
  /\ breath_flatness flow settings b =
       Returned (Some (Math_max zero (Math_min (of_Z 100)
         (mul (div (sub (targetVar settings)
                        (variance (slice (normalized_inspiration flow b) first (S last))))
                   (targetVar settings))
              (of_Z 100)))))
  /\ (forall bs, exists scores,
        flScores flow settings bs = Returned scores /\
        scores = omap (flatness_stated flow settings) bs /\
        flScore scores =
          match scores with
          | [] => zero
          | x :: rest => div (fold_left add rest x) (of_nat (length scores))
          end)
  /\ flatness_of (targetVar ∅) zero = of_Z 100.
Proof.
  intros Hlen Hmax Hf Hl. split; [|split; [|split]].
  - exact (first_le_last _ _ _ _ Hf Hl).
  - rewrite breath_flatness_stated. unfold flatness_stated.
    apply Nat.ltb_ge in Hlen. rewrite Hlen, (geb_not_ltb _ _ Hmax), Hf, Hl.
    reflexivity.
  - intros bs. exists (omap (flatness_stated flow settings) bs).
    split; [apply flScores_stated|]. split; [reflexivity|].
    destruct (omap (flatness_stated flow settings) bs); reflexivity.
  - vm_compute. reflexivity.
Qed.

Lemma C5_flow_limitation_witness :
  let b := {| start := 1; end_ := 11; inspStart := 1; inspEnd := 11;
              startTime := of_Z 1; endTime := Some (of_Z 11) |} in
  breath_flatness spike_flow ∅ b = Returned (Some (of_Z 100)).
Proof.
  cbn zeta.
  refine (eq_trans (proj1 (proj2 (C5_flow_limitation spike_flow ∅ _ 4 4 _ _ _ _))) _).
  - vm_compute. lia.
  - vm_compute. reflexivity.
  - vm_compute. reflexivity.
  - vm_compute. reflexivity.
  - vm_compute. reflexivity.
Defined.

(** C5 as stated fails on a breath with a single sample above the
    threshold: its last such index is not later than the first one, so no
    breath has the span the claim asks for and the result should be 0,
    but the analyzer scores the breath and its result is 100. *)
Lemma C5_counterexample :
  let above := fun f => gtb f (topPercent ∅) in
  (forall b, In b (segment spike_flow (of_Z 1)) ->
     forall first last,
       first_index above (normalized_inspiration spike_flow b) = Some first ->
       last_index above (normalized_inspiration spike_flow b) = Some last ->
       ~ (first < last)%nat)
  /\ bind (flScores spike_flow ∅ (segment spike_flow (of_Z 1)))
          (fun scores => Returned (flScore scores)) = Returned (of_Z 100)
  /\ of_Z 100 <> zero.
Proof.
  cbn zeta. split; [|split].
  - intros b Hb first last Hf Hl.
    assert (Hseg : segment spike_flow (of_Z 1) =
                   [{| start := 1; end_ := 11; inspStart := 1; inspEnd := 11;
                       startTime := of_Z 1; endTime := Some (of_Z 11) |}])
      by (vm_compute; reflexivity).
    rewrite Hseg in Hb. destruct Hb as [<-|[]].
    vm_compute in Hf, Hl. injection Hf as <-. injection Hl as <-. lia.
  - vm_compute. reflexivity.
  - vm_compute. discriminate.
Qed.

(** ** Arousal estimation *)







(** ** Settings that are zero *)

Lemma or_default_zero_delete (settings : Settings) (k k' : string) (d : number) :
  or_default (<[k := zero]> settings !! k') d = or_default (delete k settings !! k') d.
Proof.
  destruct (decide (k = k')) as [->|Hne].
  - now rewrite lookup_insert_eq, lookup_delete_eq.
  - now rewrite lookup_insert_ne, lookup_delete_ne.
Qed.

Lemma zero_same_as_missing (settings : Settings) (k : string) :
  same_parameters (<[k := zero]> settings) (delete k settings).
Proof. repeat split; apply or_default_zero_delete. Qed.

Lemma flScores_same (flow : list number) (s1 s2 : Settings) (bs : list Breath) :
  same_parameters s1 s2 -> flScores flow s1 bs = flScores flow s2 bs.
Proof.
  intros (H1 & H2 & _). rewrite !flScores_stated. f_equal.
  induction bs as [|b bs IH]; [reflexivity|]. cbn [omap list_omap]. rewrite IH.
  unfold flatness_stated. now rewrite H1, H2.
Qed.

Lemma arousals_same (flow : list number) (sr : number) (s1 s2 : Settings) (bs : list Breath) :
  same_parameters s1 s2 -> arousals flow sr s1 bs = arousals flow sr s2 bs.
Proof.
  intros (_ & _ & H3 & H4 & H5). unfold arousals.
  destruct ((10 <=? length bs)%nat && gtb (totalDurationHours flow sr) zero); [|reflexivity].
  do 3 f_equal. unfold arousalList.
  generalize (seq 0 (length (breathMetrics flow sr bs))), (@nil Arousal).
  intros l. induction l as [|i l IH]; intros acc; [reflexivity|].
  cbn [fold_left]. rewrite IH. f_equal.
  unfold arousal_step, qualifies, baselineMetrics. now rewrite H3, H4, H5.
Qed.

Lemma process_scores_same (Math_log : number -> number) (Math_cos Math_sin : number -> number)
    (Math_pow : number -> number -> number)
    (flow : list number) (sr : number) (s1 s2 : Settings) :
  same_parameters s1 s2 ->
  process_scores Math_cos Math_sin Math_log Math_pow flow sr s1 =
  process_scores Math_cos Math_sin Math_log Math_pow flow sr s2.
Proof.
  intros H. unfold process_scores.
  rewrite (flScores_same flow s1 s2 _ H).
  destruct (flScores flow s2 (segment flow sr)); cbn [bind]; try reflexivity.
  destruct (minuteVent flow sr) as [mv| |]; cbn [bind]; try reflexivity.
  rewrite (arousals_same flow sr s1 s2 _ H). reflexivity.
Qed.

(** C10. A parameter of the Wobble analyzer that is present and 0 reads
    as its documented default (0.5, 0.05, 120, 0.20, 0.30), and the
    analyzer returns the same result as when the key is missing. *)
Theorem C10_zero_setting_reads_as_default
    (Math_cos Math_sin Math_log : number -> number) (Math_pow : number -> number -> number)
    (toFixed1 : number -> string)
    (flow : list number) (sr : number) (settings : Settings) (k : string) :
  topPercent (<["flTopPercentage"%string := zero]> settings) = of_decimal 5 (-1)
  /\ targetVar (<["flFlatnessTarget"%string := zero]> settings) = of_decimal 5 (-2)
  /\ baselineWindow (<["arousalBaselineWindowSec"%string := zero]> settings) = of_Z 120
  /\ minRateInc (<["arousalRateIncreaseMin"%string := zero]> settings) = of_decimal 20 (-2)
  /\ minVolInc (<["arousalVolIncreaseMin"%string := zero]> settings) = of_decimal 30 (-2)
  /\ process Math_cos Math_sin Math_log Math_pow toFixed1 flow sr (<[k := zero]> settings)
     = process Math_cos Math_sin Math_log Math_pow toFixed1 flow sr (delete k settings).
Proof.
  unfold topPercent, targetVar, baselineWindow, minRateInc, minVolInc.
  rewrite !lookup_insert_eq. repeat split.
  unfold process.
  now rewrite (process_scores_same Math_log Math_cos Math_sin Math_pow flow sr _ _
                 (zero_same_as_missing settings k)).
Qed.

(** ** The engine *)

Import Engine.

Section EngineFacts.

Context {Findings World : Type}.

Implicit Types (tool : Analyzer Findings World) (tools : list (Analyzer Findings World)).

Lemma run_tool_returns flow sr settings (st : RunState Findings World) tool :
  handled (fst (invoke tool flow sr settings (world st))) = true ->
  exists e st',
    entry_of flow sr settings tool (world st) = Some e /\
    run_tool flow sr settings st tool = Returned st' /\
    results st' = <[tool_key tool := e]> (results st) /\
    world st' = snd (invoke tool flow sr settings (world st)).
Proof.
  intros Hnd. unfold run_tool, entry_of.
  destruct (invoke tool flow sr settings (world st)) as [[f|[| |m]|] w]; cbn in *;
    try discriminate Hnd.
  - eexists _, _. repeat split.
  - eexists _, _. repeat split.
Qed.

Lemma run_tools_returns flow sr settings tools :
  forall st : RunState Findings World,
  (forall tool w, In tool tools -> handled (fst (invoke tool flow sr settings w)) = true) ->
  NoDup (map tool_key tools) ->
  exists st',
    run_tools flow sr settings tools st = Returned st' /\
    world st' = world_after flow sr settings tools (world st) /\
    (forall k tool, tools !! k = Some tool ->
       results st' !! tool_key tool =
       entry_of flow sr settings tool
         (world_after flow sr settings (take k tools) (world st))) /\
    (forall key, ~ In key (map tool_key tools) -> results st' !! key = results st !! key).
Proof.
  induction tools as [|tool tools IH]; intros st Hnd Hdup.
  - exists st. repeat split; try reflexivity. intros k tool Hk. discriminate.
  - cbn [run_tools].
    destruct (run_tool_returns flow sr settings st tool) as (e & st1 & He & Hrun & Hres & Hw).
    { apply Hnd. now left. }
    rewrite Hrun. cbn [bind]. cbn [map] in Hdup. apply NoDup_cons in Hdup as [Hnotin Hdup].
    destruct (IH st1) as (st' & Hrun' & Hw' & Hent & Hother).
    { intros t w Ht. apply Hnd. now right. }
    { exact Hdup. }
    exists st'. split; [exact Hrun'|]. split; [|split].
    + rewrite Hw', Hw. reflexivity.
    + intros [|k] t Hk; cbn in Hk.
      * injection Hk as <-. cbn [take world_after fold_left].
        rewrite Hother by (rewrite <- list_elem_of_In; exact Hnotin).
        rewrite Hres, lookup_insert_eq. symmetry. exact He.
      * rewrite (Hent k t Hk). cbn [take world_after fold_left]. rewrite Hw. reflexivity.
    + intros key Hkey. cbn [map] in Hkey.
      rewrite Hother by (intros Hin; apply Hkey; now right).
      rewrite Hres. apply lookup_insert_ne. intros Heq. apply Hkey. now left.
Qed.

Lemma register_all_analyzers (objects : list (Analyzer Findings World)) (e : EngineState Findings World) :
  analyzers (fold_left (fun e analyzer => register analyzer e) objects e)
  = analyzers e ++ List.filter accepted objects.
Proof.
  revert e. induction objects as [|a objects IH]; intros e; cbn [fold_left List.filter].
  - now rewrite app_nil_r.
  - rewrite IH. unfold register, accepted.
    destruct (falsy_string (id a) || negb (bool_decide (is_Some (process a)))
              || negb (bool_decide (is_Some (tableColumns a)))); cbn.
    + reflexivity.
    + now rewrite <- app_assoc.
Qed.

End EngineFacts.

(** C4, as the code has it. The engine keeps the accepted analyzers in
    registration order and [processSession] calls them in that order,
    each in the world the previous ones left. When the ids are pairwise
    distinct and every tool returns or throws a value other than [null]
    and [undefined], the run returns, and the results hold under every
    tool's id an error entry with the message of what it threw when the
    tool threw, and its findings when it returned: a tool that throws
    does not change what the others contribute. *)
Theorem C4_registry_isolation {Findings World : Type}
    (objects : list (Analyzer Findings World))
    (flow : list number) (sr : number) (settings : Settings) (w : World) :
  let tools := analyzers (register_all objects) in
  NoDup (map tool_key tools) ->
  (forall tool w', In tool tools -> handled (fst (invoke tool flow sr settings w')) = true) ->
  tools = List.filter accepted objects
  /\ exists st,
       processSession (register_all objects) flow sr settings w = Returned st
       /\ world st = world_after flow sr settings tools w
       /\ (forall k tool, tools !! k = Some tool ->
             let wk := world_after flow sr settings (take k tools) w in
             (forall message,
                fst (invoke tool flow sr settings wk) = Raise (RaisedValue message) ->
                results st !! tool_key tool = Some (ErrorEntry message))
             /\ (forall findings, fst (invoke tool flow sr settings wk) = Finished findings ->
                   results st !! tool_key tool = Some (Found findings))).
Proof.
  intros tools Hdup Hnd. split.
  - unfold tools, register_all. now rewrite register_all_analyzers.
  - unfold processSession. fold tools.
    destruct (run_tools_returns flow sr settings tools
                {| results := ∅; run_console := console (register_all objects); world := w |}
                Hnd Hdup) as (st & Hrun & Hw & Hent & _).
    exists st. split; [exact Hrun|]. split; [exact Hw|].
    intros k tool Hk. specialize (Hent k tool Hk). cbn [world] in Hent.
    unfold entry_of in Hent. split.
    + intros message Hm. now rewrite Hm in Hent.
    + intros findings Hf. now rewrite Hf in Hent.
Qed.

Lemma C4_registry_isolation_witness :
  exists st,
    processSession (register_all [faulty_tool; steady_tool]) [] (of_Z 1) ∅ [] = Returned st
    /\ world st = ["faulty"%string; "steady"%string]
    /\ results st !! "faulty"%string = Some (ErrorEntry (Some "boom"%string))
    /\ results st !! "steady"%string = Some (Found 42%nat).
Proof.
  destruct (C4_registry_isolation [faulty_tool; steady_tool] [] (of_Z 1) ∅ [])
    as (_ & st & Hrun & Hw & Hent).
  - cbn. apply NoDup_cons. split; [|apply NoDup_singleton].
    intros H. apply list_elem_of_singleton in H. discriminate H.
  - intros tool w' [<-|[<-|[]]]; reflexivity.
  - exists st. split; [exact Hrun|]. split; [exact Hw|]. split.
    + exact (proj1 (Hent 0%nat faulty_tool eq_refl) (Some "boom"%string) eq_refl).
    + exact (proj2 (Hent 1%nat steady_tool eq_refl) 42%nat eq_refl).
Defined.

(** C4 as stated fails in two ways. It is stated for every list of
    registered analyzers, and [register] accepts two analyzers with the
    same id: both run, in order, but the later entry replaces the earlier
    one, so that the findings of [early_tool] are not in the results.
    And a tool that throws [null] is not turned into an error entry: the
    [catch] block itself throws on [error.message], and the run is
    aborted before [steady_tool] is called. *)
Lemma C4_counterexample :
  (exists st,
     processSession (register_all [early_tool; late_tool]) [] (of_Z 1) ∅ [] = Returned st
     /\ analyzers (register_all [early_tool; late_tool]) = [early_tool; late_tool]
     /\ world st = ["early"%string; "late"%string]
     /\ fst (invoke early_tool [] (of_Z 1) ∅ []) = Finished 7%nat
     /\ results st !! tool_key early_tool = Some (ErrorEntry (Some "boom"%string))
     /\ forall key, results st !! key <> Some (Found 7%nat))
  /\ analyzers (register_all [null_tool; steady_tool]) = [null_tool; steady_tool]
  /\ processSession (register_all [null_tool; steady_tool]) [] (of_Z 1) ∅ []
     = Thrown "Cannot read properties of null (reading 'message')".
Proof.
  split; [|split; reflexivity].
  eexists. split; [reflexivity|]. cbn [results world].
  split; [reflexivity|]. split; [reflexivity|]. split; [reflexivity|].
  split; [reflexivity|].
  intros key. change (tool_key late_tool) with "shared"%string.
  change (tool_key early_tool) with "shared"%string.
  rewrite insert_insert_eq.
  destruct (decide (key = "shared"%string)) as [->|Hne].
  - rewrite lookup_insert_eq. discriminate.
  - rewrite lookup_insert_ne by congruence. rewrite lookup_empty. discriminate.
Qed.

(** ** Sample entropy *)

Lemma count_fold (P : nat -> bool) (l : list nat) (c : nat) :
  fold_left (fun count j => if P j then S count else count) l c
  = (c + length (List.filter P l))%nat.
Proof.
  revert c. induction l as [|j l IH]; intros c; cbn [fold_left List.filter].
  - cbn. lia.
  - rewrite IH. destruct (P j); cbn [length]; lia.
Qed.

Lemma count_fold2 (P : nat -> nat -> bool) (L : nat -> list nat) (I : list nat) (c : nat) :
  fold_left
    (fun count i => fold_left (fun count j => if P i j then S count else count) (L i) count)
    I c
  = (c + length (flat_map (fun i => List.filter (P i) (L i)) I))%nat.
Proof.
  revert c. induction I as [|i I IH]; intros c; cbn [fold_left flat_map].
  - cbn. lia.
  - rewrite IH, count_fold, length_app. lia.
Qed.

Lemma filter_none {A} (f : A -> bool) (l : list A) :
  (forall x, In x l -> f x = false) -> List.filter f l = [].
Proof.
  induction l as [|x l IH]; intros H; cbn; [reflexivity|].
  rewrite (H x) by now left. apply IH. intros y Hy. apply H. now right.
Qed.

(** Filtering the indices below [N] by membership in [[a, b)] and [P] is
    filtering the indices of [[a, b)] by [P]. *)
Lemma filter_seq_range (P : nat -> bool) (a b N : nat) :
  (a <= b <= N)%nat ->
  List.filter (fun j => (a <=? j)%nat && (j <? b)%nat && P j) (seq 0 N)
  = List.filter P (seq a (b - a)).
Proof.
  intros H.
  replace N with (a + ((b - a) + (N - b)))%nat by lia.
  rewrite !seq_app, !List.filter_app. cbn [Nat.add].
  rewrite (filter_none _ (seq 0 a)).
  2:{ intros j Hj. apply in_seq in Hj.
      replace (a <=? j)%nat with false by (symmetry; apply Nat.leb_gt; lia). reflexivity. }
  rewrite (filter_none _ (seq (a + (b - a)) (N - b))).
  2:{ intros j Hj. apply in_seq in Hj.
      replace (j <? b)%nat with false by (symmetry; apply Nat.ltb_ge; lia).
      now rewrite andb_false_r. }
  rewrite app_nil_r. cbn [app]. apply filter_ext_in.
  intros j Hj. apply in_seq in Hj.
  replace (a <=? j)%nat with true by (symmetry; apply Nat.leb_le; lia).
  replace (j <? b)%nat with true by (symmetry; apply Nat.ltb_lt; lia).
  reflexivity.
Qed.

Lemma length_filter_pairs (Q : nat -> nat -> bool) (I J : list nat) :
  length (List.filter (fun p => Q (fst p) (snd p)) (list_prod I J))
  = length (flat_map (fun i => List.filter (Q i) J) I).
Proof.
  induction I as [|i I IH]; cbn [list_prod flat_map]; [reflexivity|].
  rewrite List.filter_app, !length_app, IH. f_equal.
  clear IH. induction J as [|j J IHJ]; cbn; [reflexivity|].
  destruct (Q i j); cbn; now rewrite IHJ.
Qed.

Lemma length_flat_map_ext {A B} (f g : A -> list B) (l : list A) :
  (forall x, In x l -> length (f x) = length (g x)) ->
  length (flat_map f l) = length (flat_map g l).
Proof.
  induction l as [|x l IH]; intros H; cbn; [reflexivity|].
  rewrite !length_app, (H x) by now left. f_equal. apply IH.
  intros y Hy. apply H. now right.
Qed.

Lemma flat_map_none {A B} (f : A -> list B) (l : list A) :
  (forall x, In x l -> f x = []) -> flat_map f l = [].
Proof.
  induction l as [|x l IH]; intros H; cbn; [reflexivity|].
  rewrite (H x) by now left. apply IH. intros y Hy. apply H. now right.
Qed.

(** What [countMatches] counts. *)
Lemma countMatches_pairs (mv : list number) (r : number) (m : nat) :
  countMatches mv r m =
  count_pairs (length mv)
    (fun i j => (i <? j)%nat && (j + m <? length mv)%nat && template_match mv r m i j).
Proof.
  unfold countMatches, count_pairs. set (N := length mv).
  rewrite count_fold2.
  rewrite (length_filter_pairs
             (fun i j => (i <? j)%nat && (j + m <? N)%nat && template_match mv r m i j)).
  cbn [Nat.add].
  destruct (le_lt_dec m N) as [Hm | Hm].
  - assert (HJ : exists J, J = seq 0 N) by eauto. destruct HJ as [J HJ].
    rewrite <- HJ at 1.
    assert (HJ2 : J = seq 0 (N - m) ++ seq (N - m) m).
    { rewrite HJ. change (N - m)%nat with (0 + (N - m))%nat at 2.
      rewrite <- seq_app. f_equal. lia. }
    rewrite HJ2, flat_map_app, length_app.
    rewrite (flat_map_none _ (seq (N - m) m)).
    2:{ intros i Hi. apply in_seq in Hi. apply filter_none. intros j Hj.
        destruct (i <? j)%nat eqn:Hij; [|reflexivity]. apply Nat.ltb_lt in Hij.
        replace (j + m <? N)%nat with false by (symmetry; apply Nat.ltb_ge; lia).
        reflexivity. }
    cbn [length]. rewrite Nat.add_0_r. apply length_flat_map_ext.
    intros i Hi. apply in_seq in Hi. f_equal.
    rewrite <- (filter_seq_range _ (S i) (N - m) N) by lia.
    apply filter_ext. intros j. f_equal.
    destruct (i <? j)%nat eqn:H1, (S i <=? j)%nat eqn:H2,
             (j + m <? N)%nat eqn:H3, (j <? N - m)%nat eqn:H4; try reflexivity;
      repeat match goal with
             | H : (_ <? _)%nat = true |- _ => apply Nat.ltb_lt in H
             | H : (_ <? _)%nat = false |- _ => apply Nat.ltb_ge in H
             | H : (_ <=? _)%nat = true |- _ => apply Nat.leb_le in H
             | H : (_ <=? _)%nat = false |- _ => apply Nat.leb_gt in H
             end; lia.
  - replace (N - m)%nat with 0%nat by lia. cbn [seq flat_map length].
    rewrite flat_map_none; [reflexivity|].
    intros i _. apply filter_none. intros j _.
    replace (j + m <? N)%nat with false by (symmetry; apply Nat.ltb_ge; lia).
    now rewrite andb_false_r.
Qed.

Lemma SFcompare_total (x r : number) :
  is_nan x = false -> is_nan r = false -> exists c, SFcompare x r = Some c.
Proof.
  destruct x as [sx|sx| |sx mx ex], r as [sr|sr| |sr mr er]; cbn;
    intros Hx Hr; try discriminate; eauto.
Qed.

Lemma not_gtb_leb (x r : number) :
  is_nan x = false -> is_nan r = false -> negb (gtb x r) = leb x r.
Proof.
  intros Hx Hr. unfold gtb, leb, SFltb, SFleb. rewrite (SFcompare_antisym x r).
  destruct (SFcompare_total x r Hx Hr) as [c ->]. destruct c; reflexivity.
Qed.

(** C8, as the code has it. With r = 0.2 * sqrt(variance of the series),
    [countMatches(m)] is the number of index pairs i < j with j < N - m
    such that no offset k in [0, m) has |series[i+k] - series[j+k]| > r,
    which is |...| <= r at every offset when r and the differences are
    not NaN. The pairs run below N - m, so the last template that lies
    within the series takes no part. B is this count for m = 2 and A for
    m = 3, and sampleEntropy = -ln(A/B) when both are nonzero, 0
    otherwise. *)
Theorem C8_sample_entropy (Math_log : number -> number)
    (Math_pow : number -> number -> number)
    (mv : list number) (mvMean : number) (m : nat) :
  let r := tolerance Math_pow mv mvMean in
  r = mul (of_decimal 2 (-1)) (Math_sqrt (mv_variance Math_pow mv mvMean))
  /\ countMatches mv r m =
       count_pairs (length mv)
         (fun i j => (i <? j)%nat && (j + m <? length mv)%nat && template_match mv r m i j)
  /\ (forall i j,
        is_nan r = false ->
        (forall k, (k < m)%nat ->
           is_nan (Math_abs (sub (get mv (i + k)) (get mv (j + k)))) = false) ->
        template_match mv r m i j = match_stated mv r m i j)
  /\ sampleEntropy Math_log mv r =
       if (countMatches mv r 2 =? 0)%nat || (countMatches mv r 3 =? 0)%nat then zero
       else neg (Math_log (div (of_nat (countMatches mv r 3)) (of_nat (countMatches mv r 2)))).
Proof.
  intros r. split; [reflexivity|]. split; [apply countMatches_pairs|]. split; [|reflexivity].
  intros i j Hr Hk. unfold template_match, match_stated.
  assert (H : forall l, (forall k, In k l -> (k < m)%nat) ->
            forallb (fun k => negb (gtb (Math_abs (sub (get mv (i + k)) (get mv (j + k)))) r)) l
            = forallb (fun k => leb (Math_abs (sub (get mv (i + k)) (get mv (j + k)))) r) l).
  { induction l as [|k l IH]; intros Hl; cbn [forallb]; [reflexivity|].
    rewrite not_gtb_leb by (auto; apply Hk, Hl; now left).
    rewrite IH; [reflexivity|]. intros k' Hk'. apply Hl. now right. }
  apply H. intros k Hin. apply in_seq in Hin. lia.
Qed.

(** C8 as stated fails on the series [0, 0, 0], whose tolerance is 0: the
    templates of length 2 at the indices 0 and 1 lie within the series
    and match, so the stated B is 1, but [countMatches(2)] is 0. *)
Lemma C8_counterexample :
  let mv := [zero; zero; zero] in
  mean_of mv = Returned zero
  /\ (forall Math_pow : number -> number -> number,
        Math_pow zero (of_Z 2) = zero -> tolerance Math_pow mv zero = zero)
  /\ count_stated mv zero 2 = 1%nat
  /\ countMatches mv zero 2 = 0%nat.
Proof.
  cbn zeta. split; [vm_compute; reflexivity|]. split; [|split; vm_compute; reflexivity].
  intros Math_pow H. unfold tolerance, mv_variance. cbn [fold_left length].
  change (sub zero zero) with zero. rewrite H. vm_compute. reflexivity.
Qed.

(** ** Periodicity *)

(** C7 does not hold of the code: the ratio pbPower / totalPower is taken
    without a test on totalPower. A series of a single window is padded to
    length 1, the first half of its bins is empty, both sums are 0 and the
    index is 0 / 0, which is NaN: so it is for the 61 samples of
    [one_window_flow] at 1 Hz, whatever the library functions are. *)
Theorem C7_periodicity_single_window
    (Math_cos Math_sin Math_log : number -> number) (Math_pow : number -> number -> number) :
  (forall v mvMean, periodicityIndex Math_cos Math_sin [v] mvMean = NaN)
  /\ length one_window_flow = 61%nat
  /\ exists mv scores,
       minuteVent one_window_flow (of_Z 1) = Returned [mv]
       /\ process_scores Math_cos Math_sin Math_log Math_pow one_window_flow (of_Z 1) ∅
          = Returned scores
       /\ score_periodicity scores = NaN
       /\ is_finite (score_periodicity scores) = false.
Proof.
  split; [intros v mvMean; reflexivity|]. split; [reflexivity|].
  eexists _, _. split; [vm_compute; reflexivity|].
  split; [vm_compute; reflexivity|]. split; reflexivity.
Qed.

(** ** The EDF parser *)

Import EDF.

Lemma int16_at_in_range (buffer : list byte) (o : nat) :
  (o + 2 <= length buffer)%nat -> exists d, int16_at buffer o = Some d.
Proof.
  intros H. unfold int16_at.
  destruct (lookup_lt_is_Some_2 buffer o) as [lo ->]; [lia|].
  destruct (lookup_lt_is_Some_2 buffer (S o)) as [hi ->]; [lia|].
  eauto.
Qed.

Lemma getInt16_in_range (buffer : list byte) (o : nat) :
  (o + 2 <= length buffer)%nat ->
  getInt16 buffer (IFin (Z.of_nat o)) = Returned (default 0 (int16_at buffer o)).
Proof.
  intros H. unfold getInt16.
  replace (Z.of_nat o <? 0) with false by (symmetry; apply Z.ltb_ge; lia).
  rewrite Nat2Z.id. destruct (int16_at_in_range buffer o H) as [d ->]. reflexivity.
Qed.

Lemma chunk_ext (buffer : list byte) (s1 s2 : Signal) (o n : nat) :
  digitalMin s1 = digitalMin s2 -> scaleFactor s1 = scaleFactor s2 ->
  physicalMin s1 = physicalMin s2 ->
  chunk buffer s1 o n = chunk buffer s2 o n.
Proof.
  intros H1 H2 H3. revert o. induction n as [|n IH]; intros o; cbn [chunk]; [reflexivity|].
  rewrite IH. unfold physVal. now rewrite H1, H2, H3.
Qed.

Lemma length_chunk (buffer : list byte) (signal : Signal) (o n : nat) :
  length (chunk buffer signal o n) = n.
Proof. revert o. induction n as [|n IH]; intros o; cbn; [reflexivity | now rewrite IH]. Qed.

Lemma read_samples_ok (buffer : list byte) (n : nat) :
  forall (signal : Signal) (o : nat),
  (o + 2 * n <= length buffer)%nat ->
  read_samples buffer n signal (IFin (Z.of_nat o)) =
  Returned (set_values signal (physicalValues signal ++ chunk buffer signal o n),
            IFin (Z.of_nat (o + 2 * n))).
Proof.
  induction n as [|n IH]; intros signal o H; cbn [read_samples chunk].
  - rewrite app_nil_r, Nat.add_0_r. destruct signal; reflexivity.
  - rewrite getInt16_in_range by lia. cbn [bind advance].
    replace (Z.of_nat o + 2) with (Z.of_nat (o + 2)) by lia.
    rewrite IH by lia. f_equal. f_equal.
    + unfold push_value, set_values. cbn. rewrite <- app_assoc. cbn [app].
      do 3 f_equal. apply chunk_ext; reflexivity.
    + do 2 f_equal. lia.
Qed.

Lemma read_record_ok (buffer : list byte) (signals : list Signal) :
  forall o : nat,
  (o + 2 * record_samples signals <= length buffer)%nat ->
  read_record buffer signals (IFin (Z.of_nat o)) =
  Returned (fill_record buffer signals o, IFin (Z.of_nat (o + 2 * record_samples signals))).
Proof.
  induction signals as [|signal rest IH]; intros o H; cbn [read_record fill_record record_samples fold_right].
  - now rewrite Nat.add_0_r.
  - cbn [record_samples fold_right] in H. fold (record_samples rest) in *.
    fold (samples_of signal). rewrite read_samples_ok by lia. cbn [bind].
    rewrite IH by lia. cbn [bind]. do 3 f_equal. lia.
Qed.

Lemma samples_of_set_values (signal : Signal) (values : list number) :
  samples_of (set_values signal values) = samples_of signal.
Proof. reflexivity. Qed.

Lemma record_samples_fill (buffer : list byte) (signals : list Signal) (o : nat) :
  record_samples (fill_record buffer signals o) = record_samples signals.
Proof.
  revert o. induction signals as [|signal rest IH]; intros o; cbn; [reflexivity|].
  fold (record_samples (fill_record buffer rest (o + 2 * samples_of signal))).
  fold (record_samples rest). now rewrite IH.
Qed.

Lemma read_records_ok (buffer : list byte) (records : nat) :
  forall (signals : list Signal) (o : nat),
  (o + 2 * (records * record_samples signals) <= length buffer)%nat ->
  read_records buffer records signals (IFin (Z.of_nat o)) =
  Returned (fill_records buffer records signals o).
Proof.
  induction records as [|records IH]; intros signals o H; cbn [read_records fill_records].
  - reflexivity.
  - rewrite read_record_ok by lia. cbn [bind].
    apply IH. rewrite record_samples_fill. lia.
Qed.

Lemma take_fill_record (buffer : list byte) (signals : list Signal) (o c : nat) :
  take c (fill_record buffer signals o) = fill_record buffer (take c signals) o.
Proof.
  revert o c. induction signals as [|signal rest IH]; intros o [|c]; cbn; try reflexivity.
  now rewrite IH.
Qed.

Lemma length_fill_record (buffer : list byte) (signals : list Signal) (o : nat) :
  length (fill_record buffer signals o) = length signals.
Proof.
  revert o. induction signals as [|signal rest IH]; intros o; cbn; [reflexivity|].
  now rewrite IH.
Qed.

Lemma length_fill_records (buffer : list byte) (records : nat) (signals : list Signal) (o : nat) :
  length (fill_records buffer records signals o) = length signals.
Proof.
  revert signals o. induction records as [|records IH]; intros signals o; cbn; [reflexivity|].
  now rewrite IH, length_fill_record.
Qed.

Lemma fill_record_lookup (buffer : list byte) (signals : list Signal) :
  forall (o c : nat) (signal : Signal),
  signals !! c = Some signal ->
  fill_record buffer signals o !! c =
  Some (set_values signal
          (physicalValues signal
           ++ chunk buffer signal (o + 2 * record_samples (take c signals)) (samples_of signal))).
Proof.
  induction signals as [|s0 rest IH]; intros o c signal H; [discriminate|].
  destruct c as [|c]; cbn in H |- *.
  - injection H as ->. now rewrite Nat.add_0_r.
  - rewrite (IH _ _ _ H). fold (record_samples (take c rest)).
    do 4 f_equal. lia.
Qed.

Lemma all_chunks_ext (buffer : list byte) (s1 s2 : Signal) (o R n : nat) :
  digitalMin s1 = digitalMin s2 -> scaleFactor s1 = scaleFactor s2 ->
  physicalMin s1 = physicalMin s2 -> numSamplesPerRecord s1 = numSamplesPerRecord s2 ->
  all_chunks buffer s1 o R n = all_chunks buffer s2 o R n.
Proof.
  intros H1 H2 H3 H4. revert o. induction n as [|n IH]; intros o; cbn [all_chunks]; [reflexivity|].
  rewrite IH. unfold samples_of. rewrite H4. f_equal. now apply chunk_ext.
Qed.

Lemma fill_records_lookup (buffer : list byte) (records : nat) :
  forall (signals : list Signal) (o c : nat) (signal : Signal),
  signals !! c = Some signal ->
  fill_records buffer records signals o !! c =
  Some (set_values signal
          (physicalValues signal
           ++ all_chunks buffer signal (o + 2 * record_samples (take c signals))
                (record_samples signals) records)).
Proof.
  induction records as [|records IH]; intros signals o c signal H; cbn [fill_records all_chunks].
  - rewrite app_nil_r, H. destruct signal; reflexivity.
  - rewrite (IH _ _ c _ (fill_record_lookup buffer signals o c signal H)).
    rewrite take_fill_record, !record_samples_fill.
    unfold set_values at 1 2. cbn. f_equal. unfold set_values. f_equal.
    rewrite <- app_assoc. do 2 f_equal.
    rewrite (all_chunks_ext buffer _ signal) by reflexivity.
    f_equal. lia.
Qed.

Lemma chunk_lookup (buffer : list byte) (signal : Signal) (n : nat) :
  forall o s, (s < n)%nat ->
  chunk buffer signal o n !! s
  = Some (physVal signal (default 0 (int16_at buffer (o + 2 * s)))).
Proof.
  induction n as [|n IH]; intros o s H; [lia|].
  destruct s as [|s]; cbn [chunk].
  - cbn. now rewrite Nat.add_0_r.
  - cbn [lookup list_lookup]. rewrite IH by lia. do 4 f_equal. lia.
Qed.

Lemma length_all_chunks (buffer : list byte) (signal : Signal) (o R n : nat) :
  length (all_chunks buffer signal o R n) = (samples_of signal * n)%nat.
Proof.
  revert o. induction n as [|n IH]; intros o; cbn [all_chunks]; [cbn; lia|].
  rewrite length_app, length_chunk, IH. lia.
Qed.

Lemma all_chunks_lookup (buffer : list byte) (signal : Signal) (R n : nat) :
  forall o r s, (r < n)%nat -> (s < samples_of signal)%nat ->
  all_chunks buffer signal o R n !! (r * samples_of signal + s)%nat
  = Some (physVal signal (default 0 (int16_at buffer (o + 2 * (r * R + s))))).
Proof.
  induction n as [|n IH]; intros o r s Hr Hs; [lia|].
  cbn [all_chunks]. destruct r as [|r].
  - rewrite lookup_app_l by (rewrite length_chunk; lia).
    cbn [Nat.mul Nat.add]. apply chunk_lookup. exact Hs.
  - rewrite lookup_app_r by (rewrite length_chunk; lia).
    rewrite length_chunk.
    replace (S r * samples_of signal + s - samples_of signal)%nat
      with (r * samples_of signal + s)%nat by lia.
    rewrite IH by lia. do 4 f_equal. lia.
Qed.

Lemma record_samples_slot (signals : list Signal) (c : nat) (signal : Signal) :
  signals !! c = Some signal ->
  (record_samples (take c signals) + samples_of signal <= record_samples signals)%nat.
Proof.
  revert c. induction signals as [|s0 rest IH]; intros c H; [discriminate|].
  destruct c as [|c]; cbn in H |- *.
  - injection H as ->. lia.
  - specialize (IH c H). fold (record_samples (take c rest)). fold (record_samples rest). lia.
Qed.

(** What the signal headers start from: no value yet, and the scale
    factor of the header's ranges. *)
Lemma parseSignals_fresh (buffer : list byte) (header : Header) (sigs : list Signal) :
  parseSignals buffer header = Returned sigs ->
  forall signal, In signal sigs ->
    physicalValues signal = []
    /\ scaleFactor signal =
       div (sub (physicalMax signal) (physicalMin signal))
           (sub (digitalMax signal) (digitalMin signal)).
Proof.
  unfold parseSignals. intros H.
  repeat match type of H with
         | bind ?c _ = _ => destruct c; cbn [bind] in H; try discriminate H
         end.
  injection H as <-. intros signal Hin. apply in_map_iff in Hin as (i & <- & _).
  split; reflexivity.
Qed.

(** A buffer whose headers decode and whose data records fit is parsed
    into the signals filled record after record. *)
Lemma parse_well_formed (buffer : list byte) (header : Header) (sigs0 : list Signal) (hb : nat) :
  parseHeader buffer = Returned header ->
  parseSignals buffer header = Returned sigs0 ->
  offset_of (headerBytes header) = IFin (Z.of_nat hb) ->
  (hb + 2 * (trip_count (numDataRecords header) * record_samples sigs0) <= length buffer)%nat ->
  parse buffer =
  Returned {| metadata := header;
              signals := fill_records buffer (trip_count (numDataRecords header)) sigs0 hb;
              flowSignal :=
                List.find is_flow
                  (fill_records buffer (trip_count (numDataRecords header)) sigs0 hb) |}.
Proof.
  intros Hh Hs Ho Hfit. unfold parse. rewrite Hh. cbn [bind]. rewrite Hs. cbn [bind].
  rewrite Ho, read_records_ok by exact Hfit. reflexivity.
Qed.

(** C1. For a buffer whose header and signal headers decode and whose
    data records fit (from byte [hb], the header's headerBytes), [parse]
    returns a recording with the decoded headers; for every channel c the
    waveform has exactly samplesPerRecord_c * numDataRecords values, and
    its value at position r * samplesPerRecord_c + s is
    (d - digitalMin_c) * scaleFactor_c + physicalMin_c, where d is the
    signed little-endian 16-bit integer at byte
    hb + 2 * (r * (samples of a whole record) + (samples of the channels
    before c) + s), and scaleFactor_c =
    (physicalMax_c - physicalMin_c) / (digitalMax_c - digitalMin_c). *)
Theorem C1_decoded_waveforms (buffer : list byte) (header : Header)
    (sigs0 : list Signal) (hb : nat) :
  parseHeader buffer = Returned header ->
  parseSignals buffer header = Returned sigs0 ->
  offset_of (headerBytes header) = IFin (Z.of_nat hb) ->
  (hb + 2 * (trip_count (numDataRecords header) * record_samples sigs0)
   <= length buffer)%nat ->
  exists rec,
    parse buffer = Returned rec
    /\ metadata rec = header
    /\ length (signals rec) = length sigs0
    /\ forall c channel, sigs0 !! c = Some channel ->
         exists signal,
           signals rec !! c = Some signal
           /\ signal = set_values channel (physicalValues signal)
           /\ scaleFactor signal =
                div (sub (physicalMax signal) (physicalMin signal))
                    (sub (digitalMax signal) (digitalMin signal))
           /\ length (physicalValues signal)
              = (samples_of signal * trip_count (numDataRecords header))%nat
           /\ forall r s,
                (r < trip_count (numDataRecords header))%nat ->
                (s < samples_of signal)%nat ->
                exists d,
                  int16_at buffer
                    (hb + 2 * (r * record_samples sigs0
                               + record_samples (take c sigs0) + s)) = Some d
                  /\ physicalValues signal !! (r * samples_of signal + s)%nat
                     = Some (add (mul (sub (of_Z d) (digitalMin signal)) (scaleFactor signal))
                                 (physicalMin signal)).
Proof.
  intros Hh Hs Ho Hfit.
  eexists. split; [exact (parse_well_formed buffer header sigs0 hb Hh Hs Ho Hfit)|].
  cbn [metadata signals]. split; [reflexivity|]. split; [apply length_fill_records|].
  intros c channel Hc.
  destruct (parseSignals_fresh buffer header sigs0 Hs channel) as [Hnil Hscale].
  { apply list_elem_of_In, list_elem_of_lookup. eauto. }
  eexists. split; [exact (fill_records_lookup buffer _ sigs0 hb c channel Hc)|].
  rewrite Hnil. cbn [app set_values physicalValues scaleFactor physicalMax physicalMin
                     digitalMax digitalMin].
  split; [reflexivity|]. split; [exact Hscale|].
  change (samples_of (set_values channel _)) with (samples_of channel).
  split; [apply length_all_chunks|].
  intros r s Hr Hsm.
  pose proof (record_samples_slot sigs0 c channel Hc) as Hslot.
  destruct (int16_at_in_range buffer
              (hb + 2 * (r * record_samples sigs0 + record_samples (take c sigs0) + s)))
    as [d Hd].
  { nia. }
  exists d. split; [exact Hd|].
  rewrite all_chunks_lookup by assumption.
  replace (hb + 2 * record_samples (take c sigs0) + 2 * (r * record_samples sigs0 + s))%nat
    with (hb + 2 * (r * record_samples sigs0 + record_samples (take c sigs0) + s))%nat by lia.
  rewrite Hd. reflexivity.
Qed.

Lemma C1_decoded_waveforms_witness :
  exists rec,
    parse sample_container = Returned rec
    /\ length (signals rec) = 2%nat
    /\ exists signal d,
         signals rec !! 0%nat = Some signal
         /\ length (physicalValues signal) = 4%nat
         /\ int16_at sample_container (768 + 2 * (1 * 3 + 0 + 1)) = Some d
         /\ physicalValues signal !! 3%nat
            = Some (add (mul (sub (of_Z d) (digitalMin signal)) (scaleFactor signal))
                        (physicalMin signal)).
Proof.
  edestruct (C1_decoded_waveforms sample_container) as (rec & Hp & _ & Hl & Hch).
  - vm_compute. reflexivity.
  - vm_compute. reflexivity.
  - instantiate (1 := 768%nat). vm_compute. reflexivity.
  - vm_compute. lia.
  - exists rec. split; [exact Hp|]. split; [exact Hl|].
    edestruct (Hch 0%nat) as (signal & Hsig & Hset & _ & Hlen & Hval); [reflexivity|].
    rewrite Hset in Hlen, Hval. cbn in Hlen.
    destruct (Hval 1%nat 1%nat) as (d & Hd & Hv).
    { vm_compute. lia. }
    { vm_compute. lia. }
    exists signal, d. split; [exact Hsig|]. rewrite Hset.
    split; [exact Hlen|]. split; [exact Hd | exact Hv].
Defined.

(** *** When decoding fails *)

Lemma getStr_short (buffer : list byte) (o l : nat) :
  (length buffer < o + l)%nat ->
  getStr buffer o l = Thrown "RangeError: Invalid typed array length".
Proof.
  intros H. unfold getStr.
  replace (o + l <=? length buffer)%nat with false by (symmetry; apply Nat.leb_gt; lia).
  reflexivity.
Qed.

Lemma getStr_cases (buffer : list byte) (o l : nat) :
  (exists s, getStr buffer o l = Returned s) \/ (exists m, getStr buffer o l = Thrown m).
Proof. unfold getStr. destruct (o + l <=? length buffer)%nat; eauto. Qed.

Lemma parseHeader_short (buffer : list byte) :
  (length buffer < 256)%nat -> exists m, parseHeader buffer = Thrown m.
Proof.
  intros H. unfold parseHeader.
  do 9 (match goal with
        | |- exists m, bind (getStr ?b ?o ?l) _ = _ =>
            destruct (getStr_cases b o l) as [[? ->] | [? ->]]; cbn [bind]; [|eauto]
        end).
  rewrite (getStr_short buffer 252 4) by lia. cbn [bind]. eauto.
Qed.

Lemma collect_thrown {A} (f : nat -> outcome A) (l : list nat) :
  (forall i, f i <> Diverged) ->
  (exists i m, In i l /\ f i = Thrown m) ->
  exists m, collect (map f l) = Thrown m.
Proof.
  intros Hnd. induction l as [|i l IH]; intros (j & m & Hin & Hj); [destruct Hin|].
  cbn [map collect]. destruct (f i) as [a|m'|] eqn:Hi; cbn [bind].
  - destruct Hin as [->|Hin]; [congruence|].
    destruct IH as [m'' ->]; [eauto|]. cbn [bind]. eauto.
  - eauto.
  - destruct (Hnd i Hi).
Qed.

Lemma collect_cases {A} (f : nat -> outcome A) (l : list nat) :
  (forall i, f i <> Diverged) ->
  (exists r, collect (map f l) = Returned r) \/ (exists m, collect (map f l) = Thrown m).
Proof.
  intros Hnd. induction l as [|i l IH]; cbn [map collect]; [eauto|].
  destruct (f i) as [a|m'|] eqn:Hi; cbn [bind].
  - destruct IH as [[r ->] | [m ->]]; cbn [bind]; eauto.
  - eauto.
  - destruct (Hnd i Hi).
Qed.

Lemma getStr_returns_or_throws (buffer : list byte) (o l : nat) :
  getStr buffer o l <> Diverged.
Proof. destruct (getStr_cases buffer o l) as [[? ->] | [? ->]]; discriminate. Qed.

Lemma read_block_cases (buffer : list byte) (offset width ns : nat) :
  (exists r, read_block buffer offset width ns = Returned r)
  \/ (exists m, read_block buffer offset width ns = Thrown m).
Proof.
  apply (collect_cases (fun i => getStr buffer (offset + i * width) width)).
  intros i. apply getStr_returns_or_throws.
Qed.

Lemma read_block_short (buffer : list byte) (offset width ns : nat) :
  (1 <= ns)%nat -> (length buffer < offset + ns * width)%nat ->
  exists m, read_block buffer offset width ns = Thrown m.
Proof.
  intros Hns H.
  apply (collect_thrown (fun i => getStr buffer (offset + i * width) width)).
  - intros i. apply getStr_returns_or_throws.
  - exists (ns - 1)%nat. eexists. split; [apply in_seq; lia|].
    apply getStr_short. nia.
Qed.

Lemma parseSignals_short (buffer : list byte) (header : Header) :
  (1 <= trip_count (numSignals header))%nat ->
  (length buffer < 256 + 224 * trip_count (numSignals header))%nat ->
  exists m, parseSignals buffer header = Thrown m.
Proof.
  intros Hns H. unfold parseSignals.
  do 8 (match goal with
        | |- exists m, bind (read_block ?b ?o ?w ?n) _ = _ =>
            destruct (read_block_cases b o w n) as [[? ->] | [? ->]]; cbn [bind]; [|eauto]
        end).
  match goal with
  | |- exists m, bind (read_block ?b ?o ?w ?n) _ = _ =>
      destruct (read_block_short b o w n) as [? ->]; [exact Hns | lia |]
  end.
  cbn [bind]. eauto.
Qed.

Lemma read_samples_short (buffer : list byte) (n : nat) :
  forall (signal : Signal) (o : nat),
  (1 <= n)%nat -> (length buffer < o + 2 * n)%nat ->
  exists m, read_samples buffer n signal (IFin (Z.of_nat o)) = Thrown m.
Proof.
  induction n as [|n IH]; intros signal o Hn H; [lia|].
  cbn [read_samples].
  destruct (le_lt_dec (o + 2) (length buffer)) as [Hin | Hout].
  - rewrite getInt16_in_range by exact Hin. cbn [bind advance].
    replace (Z.of_nat o + 2) with (Z.of_nat (o + 2)) by lia.
    apply IH; lia.
  - unfold getInt16.
    replace (Z.of_nat o <? 0) with false by (symmetry; apply Z.ltb_ge; lia).
    rewrite Nat2Z.id. unfold int16_at.
    destruct (buffer !! o) as [lo|] eqn:Hlo; [|cbn [bind]; eauto].
    destruct (buffer !! S o) as [hi|] eqn:Hhi; [|cbn [bind]; eauto].
    apply lookup_lt_Some in Hhi. lia.
Qed.

Lemma read_record_short (buffer : list byte) (signals : list Signal) :
  forall o : nat,
  (1 <= record_samples signals)%nat ->
  (length buffer < o + 2 * record_samples signals)%nat ->
  exists m, read_record buffer signals (IFin (Z.of_nat o)) = Thrown m.
Proof.
  induction signals as [|signal rest IH]; intros o HR H; cbn in HR; [lia|].
  cbn [record_samples fold_right] in HR, H. fold (record_samples rest) in HR, H.
  cbn [read_record]. fold (samples_of signal).
  destruct (le_lt_dec (o + 2 * samples_of signal) (length buffer)) as [Hin | Hout].
  - rewrite read_samples_ok by exact Hin. cbn [bind].
    destruct (IH (o + 2 * samples_of signal)%nat) as [m ->]; [lia | lia |].
    cbn [bind]. eauto.
  - destruct (samples_of signal) as [|k] eqn:Hk.
    + cbn [read_samples bind].
      destruct (IH o) as [m ->]; [lia | lia |]. cbn [bind]. eauto.
    + destruct (read_samples_short buffer (S k) signal o) as [m ->]; [lia | lia |].
      cbn [bind]. eauto.
Qed.

Lemma read_records_short (buffer : list byte) (records : nat) :
  forall (signals : list Signal) (o : nat),
  (1 <= records * record_samples signals)%nat ->
  (length buffer < o + 2 * (records * record_samples signals))%nat ->
  exists m, read_records buffer records signals (IFin (Z.of_nat o)) = Thrown m.
Proof.
  induction records as [|records IH]; intros signals o HR H; [lia|].
  cbn [read_records].
  destruct (le_lt_dec (o + 2 * record_samples signals) (length buffer)) as [Hin | Hout].
  - rewrite read_record_ok by exact Hin. cbn [bind].
    apply IH; rewrite record_samples_fill; nia.
  - destruct (read_record_short buffer signals o) as [m ->]; [nia | lia |].
    cbn [bind]. eauto.
Qed.

(** A zero digital range: the scale factor is infinite or NaN. *)
Lemma zero_range_scale (p dmax dmin : number) :
  SFeqb dmax dmin = true -> is_finite (div p (sub dmax dmin)) = false.
Proof.
  unfold SFeqb. intros H.
  destruct dmax as [s1|s1| |s1 m1 e1], dmin as [s2|s2| |s2 m2 e2]; cbn in H;
    try discriminate H.
  all: try (destruct s1; discriminate H).
  all: try (destruct s2; discriminate H).
  - destruct p as [sp|sp| |sp mp ep], s1, s2; reflexivity.
  - destruct p as [sp|sp| |sp mp ep], s1, s2; try discriminate H; reflexivity.
  - assert (Heq : s1 = s2 /\ e1 = e2 /\ m1 = m2).
    { destruct s1, s2; try discriminate H;
        destruct (e1 ?= e2)%Z eqn:He; try discriminate H;
        apply Z.compare_eq in He;
        destruct (Pos.compare_cont Eq m1 m2) eqn:Hm; try discriminate H;
        apply Pos.compare_eq in Hm; auto. }
    destruct Heq as (-> & -> & ->).
    unfold sub, SFsub. rewrite Z.sub_diag. cbn [binary_normalize].
    destruct p as [sp|sp| |sp mp ep]; reflexivity.
Qed.

Lemma read_records_no_signal (buffer : list byte) (records : nat) (offset : integral) :
  read_records buffer records [] offset = Returned [].
Proof. induction records as [|records IH]; cbn; [reflexivity | exact IH]. Qed.

Lemma trip_count_nan (n : number) : is_nan n = true -> trip_count n = 0%nat.
Proof. destruct n; cbn; congruence. Qed.

Lemma in_fill_records (buffer : list byte) (records : nat) (signals : list Signal)
    (o : nat) (signal : Signal) :
  In signal (fill_records buffer records signals o) ->
  exists channel values, In channel signals /\ signal = set_values channel values.
Proof.
  intros H. apply list_elem_of_In, list_elem_of_lookup in H as [c Hc].
  assert (Hlt : (c < length signals)%nat).
  { apply lookup_lt_Some in Hc. now rewrite length_fill_records in Hc. }
  destruct (lookup_lt_is_Some_2 signals c Hlt) as [channel Hch].
  rewrite (fill_records_lookup buffer records signals o c channel Hch) in Hc.
  injection Hc as <-. eexists _, _. split; [|reflexivity].
  apply list_elem_of_In, list_elem_of_lookup. eauto.
Qed.

(** C2, as the code has it. [parse] throws (the RangeError of a typed
    array or of the DataView) and returns no recording when the buffer is
    shorter than the 256 bytes of the header, than the channel blocks it
    reads (256 + 224 * numSignals bytes, for at least one signal) or than
    the samples it reads from headerBytes on. It has no test on the
    digital range: when the headers decode and the data fit it returns a
    recording, in which a channel with digitalMax equal to digitalMin has
    an infinite or NaN scale factor. It has no test on the numeric fields
    either: with a numSignals that is no number the recording is returned
    without any signal. *)
Theorem C2_decode_failures (buffer : list byte) :
  ((length buffer < 256)%nat -> exists m, parse buffer = Thrown m)
  /\ (forall header,
        parseHeader buffer = Returned header ->
        (1 <= trip_count (numSignals header))%nat ->
        (length buffer < 256 + 224 * trip_count (numSignals header))%nat ->
        exists m, parse buffer = Thrown m)
  /\ (forall header sigs0 hb,
        parseHeader buffer = Returned header ->
        parseSignals buffer header = Returned sigs0 ->
        offset_of (headerBytes header) = IFin (Z.of_nat hb) ->
        (1 <= trip_count (numDataRecords header) * record_samples sigs0)%nat ->
        (length buffer
         < hb + 2 * (trip_count (numDataRecords header) * record_samples sigs0))%nat ->
        exists m, parse buffer = Thrown m)
  /\ (forall header sigs0 hb,
        parseHeader buffer = Returned header ->
        parseSignals buffer header = Returned sigs0 ->
        offset_of (headerBytes header) = IFin (Z.of_nat hb) ->
        (hb + 2 * (trip_count (numDataRecords header) * record_samples sigs0)
         <= length buffer)%nat ->
        exists rec,
          parse buffer = Returned rec
          /\ forall signal, In signal (signals rec) ->
               SFeqb (digitalMax signal) (digitalMin signal) = true ->
               is_finite (scaleFactor signal) = false)
  /\ (forall header,
        parseHeader buffer = Returned header ->
        is_nan (numSignals header) = true ->
        parse buffer = Returned {| metadata := header; signals := []; flowSignal := None |}).
Proof.
  split; [|split; [|split; [|split]]].
  - intros H. destruct (parseHeader_short buffer H) as [m Hm].
    exists m. unfold parse. now rewrite Hm.
  - intros header Hh Hns H. destruct (parseSignals_short buffer header Hns H) as [m Hm].
    exists m. unfold parse. rewrite Hh. cbn [bind]. now rewrite Hm.
  - intros header sigs0 hb Hh Hs Ho HR H.
    destruct (read_records_short buffer _ sigs0 hb HR H) as [m Hm].
    exists m. unfold parse. rewrite Hh. cbn [bind]. rewrite Hs. cbn [bind].
    rewrite Ho, Hm. reflexivity.
  - intros header sigs0 hb Hh Hs Ho Hfit.
    eexists. split; [exact (parse_well_formed buffer header sigs0 hb Hh Hs Ho Hfit)|].
    cbn [signals]. intros signal Hin Heq.
    apply in_fill_records in Hin as (channel & values & Hch & ->).
    destruct (parseSignals_fresh buffer header sigs0 Hs channel Hch) as [_ Hscale].
    cbn [set_values scaleFactor digitalMax digitalMin] in *.
    rewrite Hscale. now apply zero_range_scale.
  - intros header Hh Hnan. unfold parse. rewrite Hh. cbn [bind].
    unfold parseSignals. rewrite (trip_count_nan _ Hnan). cbn [read_block seq map collect bind].
    now rewrite read_records_no_signal.
Qed.

Lemma C2_decode_failures_witness :
  (exists m, parse (take 255 degenerate_container) = Thrown m)
  /\ (exists rec,
        parse degenerate_container = Returned rec
        /\ forall signal, In signal (signals rec) ->
             SFeqb (digitalMax signal) (digitalMin signal) = true ->
             is_finite (scaleFactor signal) = false).
Proof.
  split.
  - apply (proj1 (C2_decode_failures (take 255 degenerate_container))).
    vm_compute. lia.
  - eapply (proj1 (proj2 (proj2 (proj2 (C2_decode_failures degenerate_container))))).
    + vm_compute. reflexivity.
    + vm_compute. reflexivity.
    + instantiate (1 := 768%nat). vm_compute. reflexivity.
    + vm_compute. lia.
Defined.

Example truncated_containers :
  parse (take 255 sample_container) = Thrown "RangeError: Invalid typed array length"
  /\ parse (take 700 sample_container) = Thrown "RangeError: Invalid typed array length"
  /\ parse (take 778 sample_container)
     = Thrown "RangeError: Offset is outside the bounds of the DataView".
Proof. repeat split; vm_compute; reflexivity. Qed.

(** C2 as stated fails on [degenerate_container], whose channel "Flow"
    has digitalMin = digitalMax = 100: [parse] does not fail, it returns a
    recording in which this channel has the scale factor Infinity and
    the samples NaN and -Infinity. *)
Lemma C2_counterexample :
  exists rec signal,
    parse degenerate_container = Returned rec
    /\ signals rec !! 0%nat = Some signal
    /\ digitalMax signal = digitalMin signal
    /\ scaleFactor signal = Infinity
    /\ physicalValues signal = [NaN; NegInfinity; NegInfinity; NegInfinity].
Proof.
  eexists _, _. split; [vm_compute; reflexivity|].
  split; [reflexivity|]. repeat split.
Qed.
